(** * arxiv.py: extraction of ArXiv search results into JSON records

    A shallow embedding of [extrair_dados_arxiv_json] (src/arxiv.py) and the
    properties of its field extraction and of its pagination loop.

    Python strings are sequences of characters; they are modelled as
    [list ascii], one [ascii] per code point below 256, with Python's
    character classes restricted to that range.  The parsed page is a tree
    of tags and text, queried the way BeautifulSoup's [find], [find_all] and
    [get_text] query it.  The record of one article is a Python [dict]; it is
    a [gmap] from key to value.  The HTTP server, the keyword model and the
    disk are collaborators of the script and are variables of the
    development. *)

From Stdlib Require Import ZArith Ascii String DecimalString DecimalNat.
From stdpp Require Import gmap strings list fin_maps.

Set Warnings "-register-all".
Open Scope bool_scope.

(** ** Python strings *)

Module PyStr.

Definition str := list ascii.

(** A literal of the script. *)
Definition py (s : string) : str := list_ascii_of_string s.

(** The double quote character, U+0022. *)
Definition dquote : ascii := ascii_of_nat 34.

Definition chr_eqb (a b : ascii) : bool := Ascii.eqb a b.

Definition str_eqb (a b : str) : bool := bool_decide (a = b).

(** [str.isspace] for one character; also what the regex class [\s]
    accepts in a [str] pattern. *)
Definition isspace (c : ascii) : bool :=
  let n := nat_of_ascii c in
  ((9 <=? n) && (n <=? 13)) || ((28 <=? n) && (n <=? 32))
  || (n =? 133) || (n =? 160).

(** The regex class [\d]: decimal digits. *)
Definition isdecimal (c : ascii) : bool :=
  let n := nat_of_ascii c in (48 <=? n) && (n <=? 57).

(** The regex class [\w]: alphanumeric characters and the underscore. *)
Definition isword (c : ascii) : bool :=
  let n := nat_of_ascii c in
  ((48 <=? n) && (n <=? 57)) || ((65 <=? n) && (n <=? 90))
  || (n =? 95) || ((97 <=? n) && (n <=? 122))
  || (n =? 170) || (n =? 178) || (n =? 179) || (n =? 181)
  || (n =? 185) || (n =? 186) || ((188 <=? n) && (n <=? 190))
  || ((192 <=? n) && (n <=? 214)) || ((216 <=? n) && (n <=? 246))
  || (248 <=? n).

(** [s.lstrip(chars)], [s.rstrip(chars)] and [s.strip(chars)], for the set
    of characters [f]. *)
Fixpoint lstrip_by (f : ascii -> bool) (s : str) : str :=
  match s with
  | [] => []
  | c :: s' => if f c then lstrip_by f s' else s
  end.

Definition rstrip_by (f : ascii -> bool) (s : str) : str :=
  rev (lstrip_by f (rev s)).

Definition strip_by (f : ascii -> bool) (s : str) : str :=
  rstrip_by f (lstrip_by f s).

(** [s.strip()] *)
Definition strip (s : str) : str := strip_by isspace s.

(** [s.strip(chars)] *)
Definition strip_chars (chars : str) (s : str) : str :=
  strip_by (fun c => existsb (chr_eqb c) chars) s.

(** [s.startswith(p)] *)
Fixpoint startswith (p s : str) : bool :=
  match p, s with
  | [], _ => true
  | _ :: _, [] => false
  | a :: p', b :: s' => chr_eqb a b && startswith p' s'
  end.

(** [sub in s] *)
Fixpoint contains (sub s : str) : bool :=
  startswith sub s
  || match s with
     | [] => false
     | _ :: s' => contains sub s'
     end.

(** [s.replace(old, new)] for a non-empty [old]: the occurrences of [old]
    are replaced from left to right, without overlap.  [skip] counts the
    characters of an occurrence still to be dropped. *)
Fixpoint replace_from (old new : str) (skip : nat) (s : str) : str :=
  match s with
  | [] => []
  | c :: s' =>
      match skip with
      | S k => replace_from old new k s'
      | O =>
          if startswith old s
          then new ++ replace_from old new (length old - 1) s'
          else c :: replace_from old new 0 s'
      end
  end.

Definition replace (old new s : str) : str := replace_from old new 0 s.

(** [s.split(sep)] for a separator of one character. *)
Fixpoint split (sep : ascii) (s : str) : list str :=
  match s with
  | [] => [[]]
  | c :: s' =>
      if chr_eqb c sep then [] :: split sep s'
      else match split sep s' with
           | p :: ps => (c :: p) :: ps
           | [] => [[c]]
           end
  end.

(** [re.sub(r'\s+', ' ', s)]: every maximal run of whitespace becomes one
    space.  [in_run] tells that the previous character was whitespace. *)
Fixpoint sub_ws_from (in_run : bool) (s : str) : str :=
  match s with
  | [] => []
  | c :: s' =>
      if isspace c
      then (if in_run then sub_ws_from true s'
            else " "%char :: sub_ws_from true s')
      else c :: sub_ws_from false s'
  end.

Definition re_sub_ws (s : str) : str := sub_ws_from false s.

(** [int(s)] for a string of decimal digits. *)
Definition digit_value (c : ascii) : Z := Z.of_nat (nat_of_ascii c) - 48.

Definition int_of (s : str) : Z :=
  fold_left (fun acc c => 10 * acc + digit_value c)%Z s 0%Z.

(** [re.search(r"\b(20\d{2})\b", s)]: the group of the leftmost match.
    [prev] is the character before the position tried, if any.  The pattern
    starts and ends with a word character, so [\b] holds before it when
    [prev] is not a word character and after it when the next one is not. *)
Definition year_here (s : str) : option str :=
  match s with
  | a :: b :: c :: d :: rest =>
      if chr_eqb a "2" && chr_eqb b "0" && isdecimal c && isdecimal d
         && match rest with
            | [] => true
            | e :: _ => negb (isword e)
            end
      then Some [a; b; c; d]
      else None
  | _ => None
  end.

Fixpoint search_year_from (prev : option ascii) (s : str) : option str :=
  match s with
  | [] => None
  | c :: s' =>
      let boundary :=
        match prev with
        | None => true
        | Some p => negb (isword p)
        end in
      match (if boundary then year_here s else None) with
      | Some g => Some g
      | None => search_year_from (Some c) s'
      end
  end.

Definition search_year (s : str) : option str := search_year_from None s.

End PyStr.

Import PyStr.

(** ** The parsed page *)

Module Soup.

(** A node of the tree BeautifulSoup builds: a piece of text, or a tag with
    its name, the values of its [class] attribute (none when the attribute
    is missing) and its children in document order. *)
Inductive node :=
| NavigableString (s : str)
| Tag (name : str) (class_ : list str) (contents : list node).

(** [node.text], [node.get_text()]: all the text below the node. *)
Fixpoint get_text (n : node) : str :=
  match n with
  | NavigableString s => s
  | Tag _ _ cs => flat_map get_text cs
  end.

(** The nodes below [n], in document order. *)
Fixpoint descendants (n : node) : list node :=
  match n with
  | NavigableString _ => []
  | Tag _ _ cs => flat_map (fun c => c :: descendants c) cs
  end.

(** [" ".join(l)] *)
Fixpoint join_sp (l : list str) : str :=
  match l with
  | [] => []
  | [x] => x
  | x :: l' => x ++ " "%char :: join_sp l'
  end.

(** The filter [class_=wanted]: one value of the attribute is [wanted], or
    the values joined by spaces are. *)
Definition class_matches (wanted : str) (cls : list str) : bool :=
  existsb (str_eqb wanted) cls || str_eqb (join_sp cls) wanted.

Definition tag_matches (name : str) (class_ : option str) (n : node) : bool :=
  match n with
  | NavigableString _ => false
  | Tag nm cls _ =>
      str_eqb nm name
      && match class_ with
         | None => true
         | Some wanted => class_matches wanted cls
         end
  end.

(** [n.find_all(name, class_=...)] and [n.find(name, class_=...)] *)
Definition find_all (name : str) (class_ : option str) (n : node) : list node :=
  List.filter (tag_matches name class_) (descendants n).

Definition find (name : str) (class_ : option str) (n : node) : option node :=
  head (find_all name class_ n).

End Soup.

Import Soup.

(** ** The script *)

Module Arxiv.

(** What a key of [dados_artigo] holds: a string, an integer or a list of
    strings. *)
Inductive value :=
| VStr (s : str)
| VInt (n : Z)
| VList (l : list str).

(** The exceptions the loop tells apart: [requests.exceptions.RequestException]
    and any other [Exception]. *)
Inductive exn :=
| RequestException
| OtherException.

Inductive result (A : Type) :=
| Ok (a : A)
| Raise (e : exn).
Arguments Ok {A} a.
Arguments Raise {A} e.

#[global] Instance result_ret : MRet result := fun A a => Ok a.
#[global] Instance result_bind : MBind result := fun A B f m =>
  match m with
  | Ok a => f a
  | Raise e => Raise e
  end.

(** What [requests.get] gives for one page: an exception (connection
    failure, timeout), or a response with its status and its body.  The
    body is given as [BeautifulSoup(response.content, 'html.parser')] parses
    it: the tree, or nothing when the parser rejects the markup and
    raises. *)
Inductive response :=
| GetRaises
| Response (status_code : nat) (soup : option node).

(** How the [while True] loop was left. *)
Inductive stop :=
| Concluida
| ErroRequisicao
| ErroInesperado.

(** What step 6 does with [arquivo_saida]: nothing; the dump of the
    accumulator; or a write that failed and was reported ([open] may then
    have created or emptied the file, and the dump may be partial). *)
Inductive arquivo :=
| NaoEscrito
| Escrito (conteudo : list (gmap string value))
| ErroEscrita.

Record state := {
  start : nat;
  todos_os_artigos : list (gmap string value);
  requisicoes : list nat
}.

Record run := {
  final : state;
  motivo : stop;
  saida : arquivo
}.

Definition NA : value := VStr (py "N/A").

(** [d[k]] *)
Definition getitem (d : gmap string value) (k : string) : result value :=
  match d !! k with
  | Some v => Ok v
  | None => Raise OtherException
  end.

(** [l[0]] *)
Definition first_item (l : list str) : result str :=
  match l with
  | x :: _ => Ok x
  | [] => Raise OtherException
  end.

Definition primary_class : str := py "tag is-small is-link tooltip is-tooltip-top".
Definition secondary_class : str := py "tag is-small is-grey tooltip is-tooltip-top".

Section Script.

(** The keyword model: [kw_model.extract_keywords(text,
    keyphrase_ngram_range, top_n)] gives phrases with their scores, or
    raises. *)
Variable Score : Type.
Variable extract_keywords : str -> nat * nat -> nat -> result (list (str * Score)).

(** The server: the response to the request of the page at offset [start].
    The run asks for each offset once at most. *)
Variable requests_get : nat -> response.

(** Whether [open] and [json.dump] succeed. *)
Variable disk_ok : bool.

(** Lines 63-64. *)
Definition set_titulo (artigo : node) (d : gmap string value) : gmap string value :=
  let title_tag := find (py "p") (Some (py "title")) artigo in
  <["titulo"%string :=
      match title_tag with
      | Some t => VStr (strip (get_text t))
      | None => NA
      end]> d.

(** Lines 70 and 72: the value of [autores] for the text of the block. *)
Definition autores_de (text : str) : list str :=
  let authors_text := strip (replace (py "Authors:") (py "") text) in
  map strip (split "," (strip (re_sub_ws authors_text))).

(** Lines 67-74. *)
Definition set_autores (artigo : node) (d : gmap string value) : gmap string value :=
  let authors_div := find (py "p") (Some (py "authors")) artigo in
  match authors_div with
  | Some a => <["autores"%string := VList (autores_de (get_text a))]> d
  | None => <["autores"%string := NA]> d
  end.

(** Lines 77-84. *)
Definition set_abstract (artigo : node) (d : gmap string value) : gmap string value :=
  let abstract_div := find (py "span") (Some (py "abstract-full")) artigo in
  match abstract_div with
  | Some a =>
      let abstract_text := strip (get_text a) in
      let abstract_text :=
        if startswith (py "Abstract:") abstract_text
        then strip (drop (length (py "Abstract:")) abstract_text)
        else abstract_text in
      <["abstract"%string := VStr abstract_text]> d
  | None => <["abstract"%string := NA]> d
  end.

(** Line 86.  The model is given whatever [abstract] holds. *)
Definition set_keywords (d : gmap string value) : result (gmap string value) :=
  a ← getitem d "abstract"%string;
  match a with
  | VStr text =>
      kws ← extract_keywords text (1, 3) 3;
      mret (<["keywords"%string := VList (map fst kws)]> d)
  | _ => Raise OtherException
  end.

(** Lines 89-98. *)
Definition set_categorias (artigo : node) (d : gmap string value)
  : result (gmap string value) :=
  let d := <["categorias"%string := VList []]> d in
  let cat_spans := find_all (py "span") (Some primary_class) artigo in
  let d :=
    match cat_spans with
    | [] => d
    | _ => <["categorias"%string := VList (map (fun span => strip (get_text span)) cat_spans)]> d
    end in
  let cat_spans := find_all (py "span") (Some secondary_class) artigo in
  match cat_spans with
  | [] => mret d
  | _ =>
      let categories := map (fun span => strip (get_text span)) cat_spans in
      c ← getitem d "categorias"%string;
      match c with
      | VList l => mret (<["categorias"%string := VList (l ++ categories)]> d)
      | _ => Raise OtherException
      end
  end.

(** Lines 107-108: [year], [None] when the search fails. *)
Definition year_of (text : str) : result (option Z) :=
  before ← first_item (split ";" text);
  mret (match search_year before with
        | Some g => Some (int_of g)
        | None => None
        end).

(** Lines 101-112. *)
Definition set_ano (artigo : node) (d : gmap string value)
  : result (gmap string value) :=
  let metadata_p := find (py "p") (Some (py "is-size-7")) artigo in
  let d := <["ano"%string := NA]> d in
  match metadata_p with
  | Some m =>
      year ← year_of (get_text m);
      match year with
      | Some y => if (y =? 0)%Z then mret (<["ano"%string := NA]> d)
                  else mret (<["ano"%string := VInt y]> d)
      | None => mret (<["ano"%string := NA]> d)
      end
  | None => mret d
  end.

(** Line 120. *)
Definition journal_ref_de (text : str) : str :=
  strip (strip_chars [dquote] (strip (replace (py "Journal ref:") (py "") text))).

(** Lines 118-119: the test on one paragraph. *)
Definition is_journal_ref (p : node) : bool :=
  match find (py "span") None p with
  | Some span => contains (py "Journal ref") (get_text span)
  | None => false
  end.

(** Lines 114-121. *)
Definition set_journal_revista (artigo : node) (d : gmap string value)
  : gmap string value :=
  let metadata_p := find_all (py "p") (Some (py "comments is-size-7")) artigo in
  let d := <["journal_revista"%string := NA]> d in
  fold_left
    (fun d p =>
       if is_journal_ref p
       then <["journal_revista"%string := VStr (journal_ref_de (get_text p))]> d
       else d)
    metadata_p d.

(** Lines 60-121: the record of one result block. *)
Definition dados_artigo (artigo : node) : result (gmap string value) :=
  let d := (∅ : gmap string value) in
  let d := set_titulo artigo d in
  let d := set_autores artigo d in
  let d := set_abstract artigo d in
  d ← set_keywords d;
  d ← set_categorias artigo d;
  d ← set_ano artigo d;
  mret (set_journal_revista artigo d).

(** Lines 59-124: the [for] loop; a record is appended as soon as it is
    complete, and an exception leaves the loop with what was appended. *)
Fixpoint for_artigos (artigos : list node) (todos : list (gmap string value))
  : list (gmap string value) * option exn :=
  match artigos with
  | [] => (todos, None)
  | artigo :: rest =>
      match dados_artigo artigo with
      | Ok d => for_artigos rest (todos ++ [d])
      | Raise e => (todos, Some e)
      end
  end.

(** Lines 131-136: which handler takes the exception. *)
Definition handler (e : exn) : stop :=
  match e with
  | RequestException => ErroRequisicao
  | OtherException => ErroInesperado
  end.

(** [response.raise_for_status()] raises for the statuses 4xx and 5xx. *)
Definition raise_for_status (status_code : nat) : bool :=
  (400 <=? status_code) && (status_code <? 600).

(** Lines 37-136: one turn of the [while True] loop; [Some] when it
    breaks. *)
Definition pagina (st : state) : state * option stop :=
  let asked := requisicoes st ++ [start st] in
  let here todos :=
    {| start := start st; todos_os_artigos := todos; requisicoes := asked |} in
  match requests_get (start st) with
  | GetRaises => (here (todos_os_artigos st), Some ErroRequisicao)
  | Response status_code None =>
      if raise_for_status status_code
      then (here (todos_os_artigos st), Some ErroRequisicao)
      else (here (todos_os_artigos st), Some (handler OtherException))
  | Response status_code (Some soup) =>
      if raise_for_status status_code
      then (here (todos_os_artigos st), Some ErroRequisicao)
      else
        let artigos_na_pagina := find_all (py "li") (Some (py "arxiv-result")) soup in
        match artigos_na_pagina with
        | [] => (here (todos_os_artigos st), Some Concluida)
        | _ =>
            match for_artigos artigos_na_pagina (todos_os_artigos st) with
            | (todos, Some e) => (here todos, Some (handler e))
            | (todos, None) =>
                ({| start := start st + 200; todos_os_artigos := todos;
                    requisicoes := asked |}, None)
            end
        end
  end.

(** The loop, for at most [fuel] pages. *)
Fixpoint while_true (fuel : nat) (st : state) : option (state * stop) :=
  match fuel with
  | O => None
  | S fuel' =>
      match pagina st with
      | (st', Some why) => Some (st', why)
      | (st', None) => while_true fuel' st'
      end
  end.

(** Lines 139-150. *)
Definition salvar (todos : list (gmap string value)) : arquivo :=
  match todos with
  | [] => NaoEscrito
  | _ => if disk_ok then Escrito todos else ErroEscrita
  end.

Definition inicio : state :=
  {| start := 0; todos_os_artigos := []; requisicoes := [] |}.

Definition extrair_dados_arxiv_json (fuel : nat) : option run :=
  match while_true fuel inicio with
  | Some (st, why) =>
      Some {| final := st; motivo := why; saida := salvar (todos_os_artigos st) |}
  | None => None
  end.

(** *** What the loop has done when it reaches a page *)

(** The result blocks of the page at offset [o], when the request,
    [raise_for_status] and the parser raise nothing. *)
Definition artigos_da_pagina (o : nat) : option (list node) :=
  match requests_get o with
  | GetRaises => None
  | Response status_code None => None
  | Response status_code (Some soup) =>
      if raise_for_status status_code then None
      else Some (find_all (py "li") (Some (py "arxiv-result")) soup)
  end.

(** The page at offset [o] is received, and the parser rejects it. *)
Definition falha_de_analise (o : nat) : bool :=
  match requests_get o with
  | Response status_code None => negb (raise_for_status status_code)
  | _ => false
  end.

(** The request of the page at offset [o] fails: [requests.get] raises, or
    the status is an error status. *)
Definition falha_de_transporte (o : nat) : bool :=
  match requests_get o with
  | GetRaises => true
  | Response status_code _ => raise_for_status status_code
  end.

(** The records of the blocks [artigos], when none of them raises. *)
Fixpoint registros (artigos : list node) : option (list (gmap string value)) :=
  match artigos with
  | [] => Some []
  | artigo :: rest =>
      match dados_artigo artigo, registros rest with
      | Ok d, Some ds => Some (d :: ds)
      | _, _ => None
      end
  end.

(** The accumulator after the pages at offsets 0, 200, ..., 200 (k-1), when
    each of them was fetched, had result blocks and was processed to its
    end: the loop is then about to request the page at offset 200 k. *)
Fixpoint paginas_completas (k : nat) : option (list (gmap string value)) :=
  match k with
  | O => Some []
  | S k' =>
      match paginas_completas k', artigos_da_pagina (200 * k') with
      | Some acc, Some (a :: rest) =>
          match registros (a :: rest) with
          | Some recs => Some (acc ++ recs)
          | None => None
          end
      | _, _ => None
      end
  end.

(** The offsets of the first [n] requests. *)
Definition offsets (n : nat) : list nat := map (fun i => 200 * i) (seq 0 n).

(** The state of the loop when it is about to request the page at offset
    200 k, with [acc] accumulated. *)
Definition ao_chegar (k : nat) (acc : list (gmap string value)) : state :=
  {| start := 200 * k; todos_os_artigos := acc; requisicoes := offsets k |}.

End Script.

End Arxiv.

Import Arxiv.

(** ** The field rules, as the specification words them *)

Module Spec.

(** The seven keys of a record. *)
Definition campos : list string :=
  ["titulo"; "autores"; "abstract"; "keywords"; "categorias"; "ano";
   "journal_revista"]%string.

(** A record has the seven keys, and no other. *)
Definition sete_campos (rec : gmap string value) : Prop :=
  (forall k, k ∈ campos -> is_Some (rec !! k)) /\ dom rec = list_to_set campos.

(** Authors: the label removed, whitespace runs collapsed, split on
    commas, each piece trimmed. *)
Definition autores_spec (text : str) : list str :=
  map strip (split "," (re_sub_ws (replace (py "Authors:") (py "") text))).

(** The words of a string: its maximal runs of characters that are not
    whitespace. *)
Fixpoint words (s : str) : list str :=
  match s with
  | [] => []
  | c :: s' =>
      if isspace c then words s'
      else if match s' with
              | [] => true
              | d :: _ => isspace d
              end
           then [c] :: words s'
           else match words s' with
                | w :: ws => (c :: w) :: ws
                | [] => [[c]]
                end
  end.

(** Authors, said without the operations of the script: the text without
    its label is cut at the commas, and each author is the words of its
    piece with one space between them. *)
Definition autores_palavras (text : str) : list str :=
  map (fun piece => join_sp (words piece))
    (split "," (replace (py "Authors:") (py "") text)).

(** Categories: the texts of the primary tags, then of the secondary
    ones. *)
Definition categorias_spec (artigo : node) : list str :=
  map (fun t => strip (get_text t)) (find_all (py "span") (Some primary_class) artigo)
  ++ map (fun t => strip (get_text t)) (find_all (py "span") (Some secondary_class) artigo).

(** Year: the text before the first semicolon. *)
Fixpoint before_semicolon (s : str) : str :=
  match s with
  | [] => []
  | c :: s' => if chr_eqb c ";" then [] else c :: before_semicolon s'
  end.

(** Year: a standalone token [20dd] starts at index [i] of [s]; its
    value. *)
Definition token_at (s : str) (i : nat) : option Z :=
  match drop i s with
  | a :: b :: c :: d :: rest =>
      if chr_eqb a "2" && chr_eqb b "0" && isdecimal c && isdecimal d
         && match i with
            | O => true
            | S j => match s !! j with
                     | Some p => negb (isword p)
                     | None => true
                     end
            end
         && match rest with
            | [] => true
            | e :: _ => negb (isword e)
            end
      then Some (2000 + 10 * digit_value c + digit_value d)%Z
      else None
  | _ => None
  end.

(** Journal reference: the paragraphs of class "comments" whose label
    contains "Journal ref". *)
Definition journal_paragraphs (artigo : node) : list node :=
  List.filter is_journal_ref
    (find_all (py "p") (Some (py "comments is-size-7")) artigo).

(** Journal reference, from the first such paragraph. *)
Definition journal_first (artigo : node) : value :=
  match head (journal_paragraphs artigo) with
  | Some p => VStr (journal_ref_de (get_text p))
  | None => NA
  end.

(** Journal reference, from the last such paragraph. *)
Definition journal_last (artigo : node) : value :=
  match last (journal_paragraphs artigo) with
  | Some p => VStr (journal_ref_de (get_text p))
  | None => NA
  end.

(** Title: the text of the title element, trimmed. *)
Definition titulo_de (artigo : node) : value :=
  match find (py "p") (Some (py "title")) artigo with
  | Some t => VStr (strip (get_text t))
  | None => NA
  end.

(** Authors: the list of the authors element, or the sentinel. *)
Definition autores_campo (artigo : node) : value :=
  match find (py "p") (Some (py "authors")) artigo with
  | Some a => VList (autores_spec (get_text a))
  | None => NA
  end.

(** Abstract: the text the record holds, the sentinel text when the
    element is absent. *)
Definition abstract_de (artigo : node) : str :=
  match find (py "span") (Some (py "abstract-full")) artigo with
  | Some a =>
      let t := strip (get_text a) in
      if startswith (py "Abstract:") t then strip (drop 9 t) else t
  | None => py "N/A"
  end.

(** Year: the leftmost match before the first semicolon of the first
    paragraph of class "is-size-7". *)
Definition ano_de (artigo : node) : value :=
  match find (py "p") (Some (py "is-size-7")) artigo with
  | Some m =>
      match search_year (before_semicolon (get_text m)) with
      | Some g => VInt (int_of g)
      | None => NA
      end
  | None => NA
  end.

(** The record of a block, given the phrases of the model. *)
Definition registro (artigo : node) (phrases : list str) : gmap string value :=
  <["journal_revista"%string := journal_last artigo]>
  (<["ano"%string := ano_de artigo]>
  (<["categorias"%string := VList (categorias_spec artigo)]>
  (<["keywords"%string := VList phrases]>
  (<["abstract"%string := VStr (abstract_de artigo)]>
  (<["autores"%string := autores_campo artigo]>
  (<["titulo"%string := titulo_de artigo]> ∅)))))).

End Spec.

Import Spec.

(** ** The keyword model *)

(** Line 20 builds the model with the library KeyBERT, which is not part of
    the script.  Its [extract_keywords] first asks scikit-learn's
    [CountVectorizer] for the candidate phrases of the text: the text is
    lowercased, its tokens are the matches of the pattern [\b\w\w+\b], the
    stop words are dropped and the candidates are the n-grams of what is
    left.  Without a candidate the vectorizer raises "empty vocabulary" and
    [extract_keywords] answers the empty list; with candidates it ranks
    them with the embedding model.  The first part is modelled here; the
    ranking is a variable. *)

Module KeyBERT.

(** [str.lower] for one character. *)
Definition lower (c : ascii) : ascii :=
  let n := nat_of_ascii c in
  if ((65 <=? n) && (n <=? 90)) || ((192 <=? n) && (n <=? 214))
     || ((216 <=? n) && (n <=? 222))
  then ascii_of_nat (n + 32)
  else c.

(** A run of word characters is a token when it has two characters or
    more.  [cur] is the run, last character first. *)
Definition emit (cur : str) (rest : list str) : list str :=
  if 2 <=? length cur then rev cur :: rest else rest.

(** [re.findall(r"\b\w\w+\b", s)]: the maximal runs of word characters of
    length two or more. *)
Fixpoint tokens_from (cur : str) (s : str) : list str :=
  match s with
  | [] => emit cur []
  | c :: s' =>
      if isword c then tokens_from (c :: cur) s'
      else emit cur (tokens_from [] s')
  end.

Definition tokenize (s : str) : list str := tokens_from [] s.

Section Model.

Variable Score : Type.

(** The stop words ([stop_words="english"], the default). *)
Variable stop_word : str -> bool.

(** The ranking of the candidates built from the tokens, by the embedding
    model; it gives phrases with their scores, or raises. *)
Variable rank : str -> list str -> nat * nat -> nat -> result (list (str * Score)).

(** The tokens from which the candidates are built. *)
Definition analyze (docs : str) : list str :=
  List.filter (fun t => negb (stop_word t)) (tokenize (map lower docs)).

(** [kw_model.extract_keywords(docs, keyphrase_ngram_range, top_n)] *)
Definition extract_keywords (docs : str) (keyphrase_ngram_range : nat * nat)
    (top_n : nat) : result (list (str * Score)) :=
  match docs with
  | [] => Ok []
  | _ :: _ =>
      match analyze docs with
      | [] => Ok []
      | tokens => rank docs tokens keyphrase_ngram_range top_n
      end
  end.

End Model.

End KeyBERT.

(** ** Sample pages, models and servers *)

Module Sample.

Definition txt (s : string) : node := NavigableString (py s).

Definition tag (name : string) (class_ : list string) (contents : list node) : node :=
  Tag (py name) (map py class_) contents.

Definition primary_tag (s : string) : node :=
  tag "span" ["tag"; "is-small"; "is-link"; "tooltip"; "is-tooltip-top"]%string [txt s].

Definition secondary_tag (s : string) : node :=
  tag "span" ["tag"; "is-small"; "is-grey"; "tooltip"; "is-tooltip-top"]%string [txt s].

Definition journal_p (contents : list node) : node :=
  tag "p" ["comments"; "is-size-7"]%string
    (tag "span" ["has-text-black-bis"; "has-text-weight-semibold"]%string
       [txt "Journal ref:"] :: contents).

(** A result block with every element, and no abstract. *)
Definition sem_abstract : node :=
  tag "li" ["arxiv-result"]%string
    [ tag "p" ["title"; "is-5"; "mathjax"]%string [txt "
        Quantum walks
      "];
      tag "p" ["authors"]%string
        [ tag "span" ["search-hit"]%string [txt "Authors:"];
          txt " "; tag "a" [] [txt "A. Smith"]; txt ", ";
          tag "a" [] [txt "B. Jones"]; txt ",  "; tag "a" [] [txt "C. Lee"] ];
      tag "div" ["tags"]%string
        [ primary_tag "cs.AI"; secondary_tag "physics.gen-ph"; primary_tag "quant-ph" ];
      tag "p" ["is-size-7"]%string
        [txt "Submitted on 3 Jan 2022; revised 10 Feb 2023"];
      journal_p [txt " "; NavigableString [dquote];
                 txt "Phys. Rev. A 101, 2020"; NavigableString [dquote]] ].

(** The same block with an abstract. *)
Definition completo : node :=
  match sem_abstract with
  | Tag name cls contents =>
      Tag name cls
        (contents ++
         [tag "span" ["abstract-full"; "has-text-grey-dark"; "mathjax"]%string
            [txt "Abstract: Walks on graphs. "]])
  | n => n
  end.

(** A result block with two journal references. *)
Definition duas_refs : node :=
  tag "li" ["arxiv-result"]%string
    [ journal_p [txt " Phys. Rev. A 101, 2020"];
      journal_p [txt " Nature 7, 2021"] ].

(** A result block with nothing in it. *)
Definition vazio : node := tag "li" ["arxiv-result"]%string [].

(** A model that gives one phrase for every text. *)
Definition kw_eco (text : str) (ngram : nat * nat) (top_n : nat)
  : result (list (str * Z)) :=
  Ok [(text, 1%Z)].

(** A model that finds nothing. *)
Definition kw_nada (text : str) (ngram : nat * nat) (top_n : nat)
  : result (list (str * Z)) :=
  Ok [].

(** A model that fails on the text "N/A". *)
Definition kw_fragil (text : str) (ngram : nat * nat) (top_n : nat)
  : result (list (str * Z)) :=
  if str_eqb text (py "N/A") then Raise OtherException else Ok [(text, 1%Z)].

Definition pagina_de (artigos : list node) : response :=
  Response 200
    (Some (Tag (py "[document]") [] [tag "ol" ["breathe-horizontal"]%string artigos])).

(** A server whose first request fails. *)
Definition servidor_fora (o : nat) : response := GetRaises.

(** Two pages of 200 results each, then a server error. *)
Definition servidor_400 (o : nat) : response :=
  if o <? 400 then pagina_de (repeat completo 200)
  else Response 503 (Some (Tag (py "[document]") [] [])).

(** One page of two results, then an empty page. *)
Definition servidor_curto (o : nat) : response :=
  if o <? 200 then pagina_de [completo; duas_refs] else pagina_de [].

(** One page of one result, then a page that the parser rejects. *)
Definition servidor_ilegivel (o : nat) : response :=
  if o <? 200 then pagina_de [completo] else Response 200 None.

(** One page whose third block has no abstract. *)
Definition servidor_misto (o : nat) : response :=
  pagina_de [completo; completo; sem_abstract; completo].

(** No stop word. *)
Definition sem_stop (t : str) : bool := false.

(** A ranking that keeps the first [top_n] tokens. *)
Definition rank_eco (docs : str) (tokens : list str) (ngram : nat * nat)
    (top_n : nat) : result (list (str * Z)) :=
  Ok (map (fun t => (t, 1%Z)) (take top_n tokens)).

(** The text of an authors element spread over lines. *)
Definition texto_espacado : str :=
  py "Authors:
      A.   Smith ,
      B.
      Jones
    ".

(** A result block whose authors are spread over lines. *)
Definition autores_espacados : node :=
  tag "li" ["arxiv-result"]%string
    [ tag "p" ["authors"]%string
        [ tag "span" ["search-hit"]%string [txt "Authors:"];
          txt "
      "; tag "a" [] [txt "A.   Smith"]; txt " ,
      "; tag "a" [] [txt "B.
      Jones"]; txt "
    " ] ].

(** The record of [sem_abstract] with the model [kw_eco]. *)
Definition registro_sem_abstract : gmap string value :=
  registro sem_abstract [py "N/A"].

(** The record of [completo] with the models [kw_eco] and [kw_fragil]. *)
Definition registro_completo : gmap string value :=
  registro completo [py "Walks on graphs."].

(** The metadata paragraph of [sem_abstract]. *)
Definition metadata_p : node :=
  tag "p" ["is-size-7"]%string
    [txt "Submitted on 3 Jan 2022; revised 10 Feb 2023"].

(** The run on [servidor_curto] with the model [kw_eco]. *)
Definition corrida_curta : run :=
  let todos := [registro_completo; registro duas_refs [py "N/A"]] in
  {| final := {| start := 200; todos_os_artigos := todos; requisicoes := [0; 200] |};
     motivo := Concluida;
     saida := Escrito todos |}.

(** The run on [servidor_ilegivel] with the model [kw_eco]. *)
Definition corrida_ilegivel : run :=
  {| final := {| start := 200; todos_os_artigos := [registro_completo];
                 requisicoes := [0; 200] |};
     motivo := ErroInesperado;
     saida := Escrito [registro_completo] |}.

End Sample.

(** ** The URL of a page *)

Module Pedido.

(** [str(n)] for a natural number: its decimal digits. *)
Definition str_of_nat (n : nat) : str :=
  py (NilEmpty.string_of_uint (Nat.to_uint n)).

(** Line 37: the URL of the page at offset [start]. *)
Definition url_pagina (base_url : str) (start : nat) : str :=
  base_url ++ py "&start=" ++ str_of_nat start.

End Pedido.

(** ** The shape of the strings a record holds *)

Module Forma.

(** A string that [strip] leaves as it is: it neither starts nor ends with
    whitespace. *)
Definition aparado (s : str) : Prop :=
  strip s = s
  /\ (forall c, head s = Some c -> isspace c = false)
  /\ (forall c, last s = Some c -> isspace c = false).

(** No two whitespace characters in a row. *)
Fixpoint sem_brancos_seguidos (s : str) : bool :=
  match s with
  | a :: (b :: _) as s' => negb (isspace a && isspace b) && sem_brancos_seguidos s'
  | _ => true
  end.

(** The number of commas of a string. *)
Definition virgulas (s : str) : nat := count_occ ascii_dec s ","%char.

(** The values of the class attribute of a tag hold no space: the parser
    splits the attribute at whitespace. *)
Definition classes_sem_espaco (n : node) : bool :=
  match n with
  | NavigableString _ => true
  | Tag _ cls _ => forallb (fun c => negb (existsb (chr_eqb " ") c)) cls
  end.

End Forma.

Import Sample.
Import Pedido.
Import Forma.

(** * Properties *)

(** ** The string operations on small inputs *)

Example strip_ex : strip (py "  a b
 ") = py "a b".
Proof. reflexivity. Qed.

Example strip_chars_ex :
  strip_chars [dquote] (dquote :: py "a b" ++ [dquote; dquote]) = py "a b".
Proof. reflexivity. Qed.

Example split_ex : split "," (py "a,b,,c") = [py "a"; py "b"; py ""; py "c"].
Proof. reflexivity. Qed.

Example split_empty_ex : split "," (py "") = [py ""].
Proof. reflexivity. Qed.

Example replace_ex : replace (py "ab") (py "") (py "xababyaab") = py "xya".
Proof. reflexivity. Qed.

Example sub_ws_ex : re_sub_ws (py "a   b
  c ") = py "a b c ".
Proof. reflexivity. Qed.

Example contains_ex :
  contains (py "Journal ref") (py "Journal ref:") = true
  /\ contains (py "Journal ref") (py "Comments:") = false.
Proof. split; reflexivity. Qed.

Example search_year_ex :
  search_year (py "x2020 12022 2021a 20_22 2023") = Some (py "2023")
  /\ search_year (py "1999, 2100") = None.
Proof. split; reflexivity. Qed.

Example tokenize_ex :
  KeyBERT.tokenize (map KeyBERT.lower (py "Walks on a 2D graph, N/A, x_1"))
  = [py "walks"; py "on"; py "2d"; py "graph"; py "x_1"].
Proof. reflexivity. Qed.

Example extract_keywords_ex :
  KeyBERT.extract_keywords Z sem_stop rank_eco (py "Walks on graphs.") (1, 3) 3
  = Ok [(py "walks", 1%Z); (py "on", 1%Z); (py "graphs", 1%Z)]
  /\ KeyBERT.extract_keywords Z sem_stop rank_eco (py "") (1, 3) 3 = Ok [].
Proof. split; reflexivity. Qed.

Example words_ex :
  words (py "  A.   Smith
  Jr. ") = [py "A."; py "Smith"; py "Jr."].
Proof. reflexivity. Qed.

Example class_matches_ex :
  class_matches (py "is-size-7") [py "comments"; py "is-size-7"] = true
  /\ class_matches (py "comments is-size-7") [py "comments"; py "is-size-7"] = true
  /\ class_matches (py "comments is-size-7") [py "is-size-7"; py "comments"] = false.
Proof. repeat split; reflexivity. Qed.

(** ** Stripping *)

Section Strip.

Variable f : ascii -> bool.

Lemma forallb_rev (w : str) : forallb f w = true -> forallb f (rev w) = true.
Proof.
  rewrite !forallb_forall. intros H x Hx. apply H. by apply in_rev.
Qed.

Lemma lstrip_by_app_all (w s : str) :
  forallb f w = true -> lstrip_by f (w ++ s) = lstrip_by f s.
Proof.
  induction w as [|c w IH]; simpl; [done|].
  intros [Hc Hw]%andb_prop. by rewrite Hc, IH.
Qed.

Lemma lstrip_by_all (w : str) : forallb f w = true -> lstrip_by f w = [].
Proof.
  intros H. rewrite <- (app_nil_r w). by rewrite lstrip_by_app_all.
Qed.

Lemma lstrip_by_nil (s : str) : lstrip_by f s = [] -> forallb f s = true.
Proof.
  induction s as [|c s IH]; simpl; [done|].
  destruct (f c); [exact IH | discriminate].
Qed.

Lemma lstrip_by_split (s : str) :
  exists w, forallb f w = true /\ s = w ++ lstrip_by f s.
Proof.
  induction s as [|c s (w & Hw & Hs)]; simpl.
  - by exists [].
  - destruct (f c) eqn:Hc.
    + exists (c :: w). simpl. rewrite Hc, Hw. split; [done|]. by f_equal.
    + by exists [].
Qed.

Lemma lstrip_by_app (s w : str) :
  lstrip_by f s <> [] -> lstrip_by f (s ++ w) = lstrip_by f s ++ w.
Proof.
  induction s as [|c s IH]; simpl; [done|].
  destruct (f c); [exact IH | done].
Qed.

Lemma rstrip_by_app_all (s w : str) :
  forallb f w = true -> rstrip_by f (s ++ w) = rstrip_by f s.
Proof.
  intros H. unfold rstrip_by. rewrite rev_app_distr.
  by rewrite lstrip_by_app_all by by apply forallb_rev.
Qed.

Lemma rstrip_by_split (s : str) :
  exists w, forallb f w = true /\ s = rstrip_by f s ++ w.
Proof.
  destruct (lstrip_by_split (rev s)) as (w & Hw & Hs).
  exists (rev w). split; [by apply forallb_rev|].
  unfold rstrip_by. rewrite <- rev_app_distr, <- Hs. by rewrite rev_involutive.
Qed.

Lemma strip_by_app_l (w s : str) :
  forallb f w = true -> strip_by f (w ++ s) = strip_by f s.
Proof. intros H. unfold strip_by. by rewrite lstrip_by_app_all. Qed.

Lemma strip_by_app_r (s w : str) :
  forallb f w = true -> strip_by f (s ++ w) = strip_by f s.
Proof.
  intros H. unfold strip_by.
  destruct (lstrip_by f s) as [|c t] eqn:E.
  - apply lstrip_by_nil in E.
    rewrite lstrip_by_all; [done|].
    rewrite forallb_app. by rewrite E, H.
  - rewrite lstrip_by_app by by rewrite E.
    rewrite E. by apply rstrip_by_app_all.
Qed.

Lemma strip_by_all (w : str) : forallb f w = true -> strip_by f w = [].
Proof. intros H. unfold strip_by. by rewrite lstrip_by_all. Qed.

Lemma strip_by_decompose (s : str) :
  exists w1 w2,
    forallb f w1 = true /\ forallb f w2 = true /\ s = w1 ++ strip_by f s ++ w2.
Proof.
  destruct (lstrip_by_split s) as (w1 & H1 & Hs).
  destruct (rstrip_by_split (lstrip_by f s)) as (w2 & H2 & Ht).
  exists w1, w2. split; [done|]. split; [done|].
  unfold strip_by. by rewrite <- Ht.
Qed.

End Strip.

(** ** Splitting *)

Section Split.

Variable sep : ascii.

Lemma split_app_l (w v : str) :
  forallb (fun c => negb (chr_eqb c sep)) w = true ->
  exists p ps, split sep v = p :: ps /\ split sep (w ++ v) = (w ++ p) :: ps.
Proof.
  induction w as [|c w IH]; simpl.
  - intros _. destruct v as [|c v]; simpl; [by eexists _, _|].
    destruct (chr_eqb c sep); [by eexists _, _|].
    destruct (split sep v); by eexists _, _.
  - intros [Hc Hw]%andb_prop. destruct (IH Hw) as (p & ps & Hv & Hwv).
    exists p, ps. split; [done|].
    apply negb_true_iff in Hc. by rewrite Hc, Hwv.
Qed.

Lemma split_app_r (v w : str) :
  forallb (fun c => negb (chr_eqb c sep)) w = true ->
  exists l p, split sep v = l ++ [p] /\ split sep (v ++ w) = l ++ [p ++ w].
Proof.
  intros Hw. induction v as [|c v (l & p & Hv & Hvw)]; simpl.
  - exists [], []. split; [done|].
    destruct (split_app_l w [] Hw) as (p & ps & Hp & Hwp).
    simpl in Hp. injection Hp as <- <-. by rewrite app_nil_r in Hwp.
  - destruct (chr_eqb c sep).
    + exists ([] :: l), p. by rewrite Hv, Hvw.
    + rewrite Hv, Hvw. destruct l as [|q l]; simpl.
      * by exists [], (c :: p).
      * by exists ((c :: q) :: l), p.
Qed.

End Split.

Lemma no_sep_of_space (sep : ascii) (w : str) :
  isspace sep = false -> forallb isspace w = true ->
  forallb (fun c => negb (chr_eqb c sep)) w = true.
Proof.
  intros Hsep. rewrite !forallb_forall. intros H c Hc.
  apply negb_true_iff. unfold chr_eqb.
  destruct (Ascii.eqb_spec c sep) as [->|]; [|done].
  specialize (H _ Hc). congruence.
Qed.

(** Whitespace around a string does not change its trimmed pieces. *)
Lemma map_strip_split_pad (sep : ascii) (w1 v w2 : str) :
  isspace sep = false -> forallb isspace w1 = true -> forallb isspace w2 = true ->
  map strip (split sep (w1 ++ v ++ w2)) = map strip (split sep v).
Proof.
  intros Hsep H1 H2.
  destruct (split_app_r sep v w2 (no_sep_of_space _ _ Hsep H2))
    as (l & p & Hv & Hvw).
  destruct (split_app_l sep w1 (v ++ w2) (no_sep_of_space _ _ Hsep H1))
    as (q & qs & Hq & Hwq).
  rewrite Hwq, Hv. simpl. unfold strip at 1. rewrite strip_by_app_l by done.
  change (map strip (q :: qs) = map strip (l ++ [p])).
  rewrite <- Hq, Hvw, !map_app. simpl. f_equal. f_equal.
  by apply strip_by_app_r.
Qed.

Lemma map_strip_split_strip (sep : ascii) (s : str) :
  isspace sep = false ->
  map strip (split sep (strip s)) = map strip (split sep s).
Proof.
  intros Hsep.
  destruct (strip_by_decompose isspace s) as (w1 & w2 & H1 & H2 & Hs).
  rewrite Hs at 2. symmetry. by apply map_strip_split_pad.
Qed.

(** ** Collapsing whitespace *)

Lemma sub_ws_from_all (b : bool) (w : str) :
  forallb isspace w = true -> forallb isspace (sub_ws_from b w) = true.
Proof.
  revert b. induction w as [|c w IH]; intros b; simpl; [done|].
  intros [Hc Hw]%andb_prop. rewrite Hc.
  destruct b; simpl; by rewrite ?IH.
Qed.

Lemma lstrip_sub_ws_from (b : bool) (x : str) :
  lstrip_by isspace (sub_ws_from b x) = lstrip_by isspace (sub_ws_from false x).
Proof.
  destruct b; [|done]. destruct x as [|c x]; simpl; [done|].
  by destruct (isspace c).
Qed.

Lemma lstrip_sub_ws_app_l (b : bool) (w x : str) :
  forallb isspace w = true ->
  lstrip_by isspace (sub_ws_from b (w ++ x))
  = lstrip_by isspace (sub_ws_from false x).
Proof.
  revert b. induction w as [|c w IH]; intros b; simpl.
  - intros _. apply lstrip_sub_ws_from.
  - intros [Hc Hw]%andb_prop. rewrite Hc.
    destruct b; simpl; by rewrite IH.
Qed.

Lemma sub_ws_from_app_r (b : bool) (x w : str) :
  forallb isspace w = true ->
  exists w', forallb isspace w' = true
             /\ sub_ws_from b (x ++ w) = sub_ws_from b x ++ w'.
Proof.
  intros Hw. revert b. induction x as [|c x IH]; intros b; simpl.
  - exists (sub_ws_from b w). split; [by apply sub_ws_from_all | done].
  - destruct (isspace c).
    + destruct (IH true) as (w' & Hw' & E). exists w'. split; [done|].
      destruct b; by rewrite E.
    + destruct (IH false) as (w' & Hw' & E). exists w'. split; [done|].
      by rewrite E.
Qed.

Lemma strip_sub_ws_pad (w1 m w2 : str) :
  forallb isspace w1 = true -> forallb isspace w2 = true ->
  strip (re_sub_ws (w1 ++ m ++ w2)) = strip (re_sub_ws m).
Proof.
  intros H1 H2. unfold strip, re_sub_ws, strip_by at 1.
  rewrite lstrip_sub_ws_app_l by done.
  destruct (sub_ws_from_app_r false m w2 H2) as (w' & Hw' & ->).
  by apply (strip_by_app_r isspace).
Qed.

Lemma strip_sub_ws_strip (s : str) :
  strip (re_sub_ws (strip s)) = strip (re_sub_ws s).
Proof.
  destruct (strip_by_decompose isspace s) as (w1 & w2 & H1 & H2 & Hs).
  rewrite Hs at 2. symmetry. by apply strip_sub_ws_pad.
Qed.

(** The authors of lines 70 and 72 are the authors of the specification:
    the two extra [strip] of the script change nothing. *)
Lemma autores_de_spec (text : str) : autores_de text = autores_spec text.
Proof.
  unfold autores_de, autores_spec.
  rewrite strip_sub_ws_strip. by apply map_strip_split_strip.
Qed.

(** ** The authors, word by word *)

Lemma rstrip_by_cons (f : ascii -> bool) (a : ascii) (x : str) :
  rstrip_by f (a :: x)
  = match rstrip_by f x with
    | [] => if f a then [] else [a]
    | r => a :: r
    end.
Proof.
  unfold rstrip_by. simpl. destruct (lstrip_by f (rev x)) as [|c t] eqn:E.
  - apply lstrip_by_nil in E. rewrite lstrip_by_app_all by done. simpl.
    by destruct (f a).
  - rewrite lstrip_by_app by (by rewrite E). rewrite E, rev_app_distr. simpl.
    destruct (rev t ++ [c]) eqn:E'; [by destruct (rev t)|done].
Qed.

Lemma rstrip_by_cons_false (f : ascii -> bool) (a : ascii) (x : str) :
  f a = false -> rstrip_by f (a :: x) = a :: rstrip_by f x.
Proof. intros H. rewrite rstrip_by_cons, H. by destruct (rstrip_by f x). Qed.

Lemma sub_ws_true_head (s : str) (c : ascii) :
  head (sub_ws_from true s) = Some c -> isspace c = false.
Proof.
  induction s as [|a s IH]; [done|]. cbn [sub_ws_from].
  destruct (isspace a) eqn:Ha; [done|]. by intros [= <-].
Qed.

Lemma lstrip_sub_ws_true (s : str) :
  lstrip_by isspace (sub_ws_from true s) = sub_ws_from true s.
Proof.
  pose proof (sub_ws_true_head s) as H.
  destruct (sub_ws_from true s) as [|a t]; [done|]. simpl.
  by rewrite (H a eq_refl).
Qed.

Lemma split_not_nil (sep : ascii) (s : str) : split sep s <> [].
Proof.
  destruct s as [|c s]; [done|]. cbn [split].
  destruct (chr_eqb c sep); [done|]. by destruct (split sep s).
Qed.

Lemma words_not_nil (s : str) : Forall (fun w => w <> []) (words s).
Proof.
  induction s as [|c s IH]; [constructor|]. cbn [words].
  destruct (isspace c); [done|].
  destruct (match s with [] => true | d :: _ => isspace d end);
    [by constructor|].
  destruct (words s) as [|w ws]; [by repeat constructor|].
  inversion IH; subst. by constructor.
Qed.

Lemma join_sp_nil (l : list str) :
  Forall (fun w => w <> []) l -> join_sp l = [] -> l = [].
Proof.
  destruct l as [|w [|w' l]]; [done| |]; intros H; inversion H; subst.
  - simpl. by intros ->.
  - simpl. by destruct w.
Qed.

Lemma join_sp_cons_char (c : ascii) (w : str) (ws : list str) :
  join_sp ((c :: w) :: ws) = c :: join_sp (w :: ws).
Proof. by destruct ws. Qed.

(** Trimming the collapsed string leaves the words with one space between
    them. *)
Lemma strip_sub_ws_words (s : str) (b : bool) :
  strip (sub_ws_from b s) = join_sp (words s).
Proof.
  revert b. induction s as [|c s IH]; intros b; [done|].
  cbn [sub_ws_from words]. destruct (isspace c) eqn:Hc.
  - rewrite <- (IH true). unfold strip.
    destruct b; [done|].
    exact (strip_by_app_l isspace [" "%char] (sub_ws_from true s) eq_refl).
  - unfold strip, strip_by. cbn [lstrip_by]. rewrite Hc.
    rewrite rstrip_by_cons_false by done.
    destruct s as [|d s]; [done|]. destruct (isspace d) eqn:Hd.
    + specialize (IH false). cbn [sub_ws_from words] in *. rewrite Hd in *.
      unfold strip in IH.
      pose proof (strip_by_app_l isspace [" "%char] (sub_ws_from true s) eq_refl)
        as E.
      cbn [app] in E. rewrite E in IH. clear E. unfold strip_by in IH.
      rewrite lstrip_sub_ws_true in IH.
      rewrite rstrip_by_cons, IH.
      change (isspace " ") with true. cbv iota.
      pose proof (words_not_nil s) as Hw.
      destruct (words s) as [|w ws] eqn:Ew; [reflexivity|].
      change (join_sp ([c] :: w :: ws)) with (c :: " "%char :: join_sp (w :: ws)).
      destruct (join_sp (w :: ws)) eqn:Ej; [|done].
      by apply join_sp_nil in Ej.
    + specialize (IH false). unfold strip, strip_by in IH.
      cbn [sub_ws_from] in IH. rewrite Hd in IH.
      cbn [lstrip_by] in IH. rewrite Hd in IH.
      cbn [sub_ws_from]. rewrite Hd. rewrite IH.
      cbn [words]. rewrite Hd.
      destruct (match s with [] => true | e :: _ => isspace e end).
      * symmetry. apply join_sp_cons_char.
      * destruct (words s) as [|w ws]; symmetry; apply join_sp_cons_char.
Qed.

(** Collapsing does not cross a comma: the pieces of the collapsed string
    are the collapsed pieces. *)
Lemma split_sub_ws (sep : ascii) (b : bool) (s : str) :
  isspace sep = false ->
  split sep (sub_ws_from b s)
  = match split sep s with
    | p :: ps => sub_ws_from b p :: map re_sub_ws ps
    | [] => []
    end.
Proof.
  intros Hsep. revert b. induction s as [|c s IH]; intros b; [done|].
  cbn [sub_ws_from split]. unfold chr_eqb in *.
  destruct (isspace c) eqn:Hc.
  - destruct (Ascii.eqb_spec c sep) as [->|_]; [congruence|].
    assert (Ascii.eqb " " sep = false) as Hsp.
    { destruct (Ascii.eqb_spec " " sep) as [<-|]; [by vm_compute in Hsep|done]. }
    pose proof (split_not_nil sep s) as Hne.
    destruct b.
    + rewrite IH. destruct (split sep s) as [|p ps]; [done|].
      cbn [sub_ws_from]. by rewrite Hc.
    + cbn [split]. unfold chr_eqb. rewrite Hsp, IH.
      destruct (split sep s) as [|p ps]; [done|].
      cbn [sub_ws_from]. by rewrite Hc.
  - cbn [split]. unfold chr_eqb. rewrite IH.
    pose proof (split_not_nil sep s) as Hne.
    destruct (Ascii.eqb_spec c sep) as [->|_].
    + by destruct (split sep s).
    + destruct (split sep s) as [|p ps]; [done|].
      cbn [sub_ws_from]. by rewrite Hc.
Qed.

(** The authors of the script are, piece by piece, the words of the piece
    with one space between them. *)
Lemma autores_de_palavras (text : str) : autores_de text = autores_palavras text.
Proof.
  rewrite autores_de_spec. unfold autores_spec, autores_palavras, re_sub_ws.
  rewrite split_sub_ws by done.
  pose proof (split_not_nil "," (replace (py "Authors:") (py "") text)) as Hne.
  destruct (split "," (replace (py "Authors:") (py "") text)) as [|p ps];
    [done|].
  cbn [map]. rewrite strip_sub_ws_words. f_equal.
  rewrite map_map. apply map_ext. intros q. apply strip_sub_ws_words.
Qed.

(** ** The year *)

Lemma first_item_split (s : str) :
  first_item (split ";" s) = Ok (before_semicolon s).
Proof.
  induction s as [|c s IH]; simpl; [done|].
  destruct (chr_eqb c ";"); [done|].
  destruct (split ";" s); simpl in *; [done|]. by injection IH as ->.
Qed.

Lemma isdecimal_value (c : ascii) :
  isdecimal c = true -> (0 <= digit_value c <= 9)%Z.
Proof.
  unfold isdecimal, digit_value.
  intros [H1%Nat.leb_le H2%Nat.leb_le]%andb_prop. lia.
Qed.

Lemma token_at_range (s : str) (i : nat) (y : Z) :
  token_at s i = Some y -> (2000 <= y <= 2099)%Z.
Proof.
  unfold token_at. destruct (drop i s) as [|a [|b [|c [|d rest]]]]; try done.
  destruct (chr_eqb a "2" && chr_eqb b "0" && isdecimal c && isdecimal d && _ && _)
    eqn:E; [|done].
  intros [= <-].
  apply andb_prop in E as [E _]. apply andb_prop in E as [E _].
  apply andb_prop in E as [E Hd]. apply andb_prop in E as [_ Hc].
  apply isdecimal_value in Hc, Hd. lia.
Qed.

Lemma token_at_ge (s : str) (i : nat) : length s <= i -> token_at s i = None.
Proof. intros H. unfold token_at. by rewrite drop_ge. Qed.

Lemma boundary_last (pre s : str) :
  match length pre with
  | O => true
  | S j => match (pre ++ s) !! j with
           | Some p => negb (isword p)
           | None => true
           end
  end
  = match last pre with
    | None => true
    | Some p => negb (isword p)
    end.
Proof.
  destruct pre as [|x pre]; [done|].
  rewrite last_lookup. cbn [length Nat.pred].
  by rewrite lookup_app_l by (simpl; lia).
Qed.

Lemma int_of_year (c d : ascii) :
  int_of ["2"; "0"; c; d]%char = (2000 + 10 * digit_value c + digit_value d)%Z.
Proof. unfold int_of. cbn [fold_left]. change (digit_value "2") with 2%Z.
  change (digit_value "0") with 0%Z. lia. Qed.

(** At the position after [pre], the specification's token test is the
    script's test. *)
Lemma token_at_here (pre s : str) :
  token_at (pre ++ s) (length pre)
  = match (if match last pre with
              | None => true
              | Some p => negb (isword p)
              end
           then year_here s else None) with
    | Some g => Some (int_of g)
    | None => None
    end.
Proof.
  unfold token_at. rewrite drop_app_length, boundary_last.
  destruct (match last pre with None => true | Some p => negb (isword p) end);
    destruct s as [|a [|b [|c [|d rest]]]]; try done; simpl.
  - destruct (chr_eqb a "2") eqn:Ea; [|done].
    destruct (chr_eqb b "0") eqn:Eb; [|done].
    apply Ascii.eqb_eq in Ea, Eb. subst a b.
    destruct (isdecimal c); [|done]. destruct (isdecimal d); [|done]. simpl.
    destruct (match rest with [] => true | e :: _ => negb (isword e) end);
      [|done].
    by rewrite int_of_year.
  - by rewrite !andb_false_r.
Qed.

Lemma search_year_from_spec (s pre : str) :
  match search_year_from (last pre) s with
  | Some g =>
      exists i, length pre <= i
                /\ token_at (pre ++ s) i = Some (int_of g)
                /\ forall j, length pre <= j < i -> token_at (pre ++ s) j = None
  | None => forall j, length pre <= j -> token_at (pre ++ s) j = None
  end.
Proof.
  revert pre. induction s as [|c s IH]; intros pre.
  - simpl. intros j Hj. apply token_at_ge. rewrite length_app. simpl. lia.
  - pose proof (token_at_here pre (c :: s)) as Hhere.
    cbn [search_year_from].
    destruct (if match last pre with None => true | Some p => negb (isword p) end
              then year_here (c :: s) else None) as [g|].
    + exists (length pre). split; [lia|]. split; [done|]. intros j Hj. lia.
    + specialize (IH (pre ++ [c])).
      rewrite last_snoc, length_app, <- app_assoc in IH. simpl in IH.
      destruct (search_year_from (Some c) s) as [g|].
      * destruct IH as (i & Hi & Htok & Hmin).
        exists i. split; [lia|]. split; [done|]. intros j Hj.
        destruct (decide (j = length pre)) as [->|]; [done|].
        apply Hmin. lia.
      * intros j Hj.
        destruct (decide (j = length pre)) as [->|]; [done|].
        apply IH. lia.
Qed.

(** The leftmost match of the script is the first standalone token. *)
Lemma search_year_spec (s : str) :
  match search_year s with
  | Some g =>
      exists i, token_at s i = Some (int_of g)
                /\ forall j, j < i -> token_at s j = None
  | None => forall j, token_at s j = None
  end.
Proof.
  pose proof (search_year_from_spec s []) as H. simpl in H.
  unfold search_year. destruct (search_year_from None s).
  - destruct H as (i & _ & Htok & Hmin). exists i. split; [done|].
    intros j Hj. apply Hmin. lia.
  - intros j. apply H. lia.
Qed.

Lemma search_year_range (s : str) (g : str) :
  search_year s = Some g -> (2000 <= int_of g <= 2099)%Z.
Proof.
  intros H. pose proof (search_year_spec s) as Hs. rewrite H in Hs.
  destruct Hs as (i & Htok & _). by apply token_at_range in Htok.
Qed.

(** ** The record of one block *)

Lemma set_journal_fold (ps : list node) (v : value) (d : gmap string value) :
  fold_left
    (fun d p =>
       if is_journal_ref p
       then <["journal_revista"%string := VStr (journal_ref_de (get_text p))]> d
       else d)
    ps (<["journal_revista"%string := v]> d)
  = <["journal_revista"%string :=
        match last (List.filter is_journal_ref ps) with
        | Some p => VStr (journal_ref_de (get_text p))
        | None => v
        end]> d.
Proof.
  revert v. induction ps as [|p ps IH]; intros v; simpl; [done|].
  destruct (is_journal_ref p).
  - rewrite insert_insert_eq, IH, last_cons.
    by destruct (last (List.filter is_journal_ref ps)).
  - apply IH.
Qed.

Lemma set_journal_revista_eq (artigo : node) (d : gmap string value) :
  set_journal_revista artigo d
  = <["journal_revista"%string := journal_last artigo]> d.
Proof. unfold set_journal_revista. by rewrite set_journal_fold. Qed.

Lemma set_titulo_eq (artigo : node) (d : gmap string value) :
  set_titulo artigo d = <["titulo"%string := titulo_de artigo]> d.
Proof. done. Qed.

Lemma set_autores_eq (artigo : node) (d : gmap string value) :
  set_autores artigo d = <["autores"%string := autores_campo artigo]> d.
Proof.
  unfold set_autores, autores_campo.
  destruct (find (py "p") (Some (py "authors")) artigo); [|done].
  by rewrite autores_de_spec.
Qed.

Lemma set_abstract_eq (artigo : node) (d : gmap string value) :
  set_abstract artigo d = <["abstract"%string := VStr (abstract_de artigo)]> d.
Proof.
  unfold set_abstract, abstract_de.
  by destruct (find (py "span") (Some (py "abstract-full")) artigo).
Qed.

Lemma set_categorias_eq (artigo : node) (d : gmap string value) :
  set_categorias artigo d
  = Ok (<["categorias"%string := VList (categorias_spec artigo)]> d).
Proof.
  unfold set_categorias, categorias_spec.
  destruct (find_all (py "span") (Some primary_class) artigo) as [|x xs];
    destruct (find_all (py "span") (Some secondary_class) artigo) as [|y ys];
    try done.
  - unfold getitem. rewrite lookup_insert_eq. cbn. by rewrite insert_insert_eq.
  - cbn. by rewrite insert_insert_eq, app_nil_r.
  - unfold getitem. rewrite lookup_insert_eq. cbn. by rewrite !insert_insert_eq.
Qed.

Lemma set_ano_eq (artigo : node) (d : gmap string value) :
  set_ano artigo d = Ok (<["ano"%string := ano_de artigo]> d).
Proof.
  unfold set_ano, ano_de, year_of.
  destruct (find (py "p") (Some (py "is-size-7")) artigo) as [m|]; [|done].
  rewrite first_item_split. cbn.
  destruct (search_year (before_semicolon (get_text m))) as [g|] eqn:E.
  - apply search_year_range in E.
    destruct (Z.eqb_spec (int_of g) 0) as [E0|_]; [lia|].
    cbn. by rewrite insert_insert_eq.
  - cbn. by rewrite insert_insert_eq.
Qed.

Section Registro.

Variable Score : Type.
Variable extract_keywords : str -> nat * nat -> nat -> result (list (str * Score)).

(** The record is complete as soon as the model has answered; nothing else
    in the processing of a block raises. *)
Lemma dados_artigo_eq (artigo : node) :
  dados_artigo Score extract_keywords artigo
  = match extract_keywords (abstract_de artigo) (1, 3) 3 with
    | Ok kws => Ok (registro artigo (map fst kws))
    | Raise e => Raise e
    end.
Proof.
  unfold dados_artigo, set_keywords, getitem.
  rewrite set_titulo_eq, set_autores_eq, set_abstract_eq, lookup_insert_eq.
  cbn. destruct (extract_keywords (abstract_de artigo) (1, 3) 3) as [kws|e];
    [|done].
  cbn. rewrite set_categorias_eq. cbn. rewrite set_ano_eq. cbn.
  by rewrite set_journal_revista_eq.
Qed.

Lemma dados_artigo_ok (artigo : node) (rec : gmap string value) :
  dados_artigo Score extract_keywords artigo = Ok rec ->
  exists kws,
    extract_keywords (abstract_de artigo) (1, 3) 3 = Ok kws
    /\ rec = registro artigo (map fst kws).
Proof.
  rewrite dados_artigo_eq.
  destruct (extract_keywords (abstract_de artigo) (1, 3) 3) as [kws|e];
    [|done].
  intros [= <-]. by exists kws.
Qed.

End Registro.

Lemma registro_titulo (artigo : node) (kws : list str) :
  registro artigo kws !! "titulo"%string = Some (titulo_de artigo).
Proof. unfold registro. by simplify_map_eq. Qed.

Lemma registro_autores (artigo : node) (kws : list str) :
  registro artigo kws !! "autores"%string = Some (autores_campo artigo).
Proof. unfold registro. by simplify_map_eq. Qed.

Lemma registro_abstract (artigo : node) (kws : list str) :
  registro artigo kws !! "abstract"%string = Some (VStr (abstract_de artigo)).
Proof. unfold registro. by simplify_map_eq. Qed.

Lemma registro_keywords (artigo : node) (kws : list str) :
  registro artigo kws !! "keywords"%string = Some (VList kws).
Proof. unfold registro. by simplify_map_eq. Qed.

Lemma registro_categorias (artigo : node) (kws : list str) :
  registro artigo kws !! "categorias"%string = Some (VList (categorias_spec artigo)).
Proof. unfold registro. by simplify_map_eq. Qed.

Lemma registro_ano (artigo : node) (kws : list str) :
  registro artigo kws !! "ano"%string = Some (ano_de artigo).
Proof. unfold registro. by simplify_map_eq. Qed.

Lemma registro_journal (artigo : node) (kws : list str) :
  registro artigo kws !! "journal_revista"%string = Some (journal_last artigo).
Proof. unfold registro. by simplify_map_eq. Qed.

(** ** The loop *)

Lemma offsets_S (k : nat) : offsets (S k) = offsets k ++ [200 * k].
Proof. unfold offsets. by rewrite seq_S, map_app. Qed.

Section Loop.

Variable Score : Type.
Variable extract_keywords : str -> nat * nat -> nat -> result (list (str * Score)).
Variable requests_get : nat -> response.
Variable disk_ok : bool.

Abbreviation dados_artigo := (dados_artigo Score extract_keywords).
Abbreviation for_artigos := (for_artigos Score extract_keywords).
Abbreviation registros := (registros Score extract_keywords).
Abbreviation pagina := (pagina Score extract_keywords requests_get).
Abbreviation while_true := (while_true Score extract_keywords requests_get).
Abbreviation paginas_completas := (paginas_completas Score extract_keywords requests_get).
Abbreviation artigos_da_pagina := (artigos_da_pagina requests_get).
Abbreviation falha_de_transporte := (falha_de_transporte requests_get).
Abbreviation extrair_dados_arxiv_json :=
  (extrair_dados_arxiv_json Score extract_keywords requests_get disk_ok).

Lemma registros_length (artigos : list node) (recs : list (gmap string value)) :
  registros artigos = Some recs -> length recs = length artigos.
Proof.
  revert recs. induction artigos as [|a rest IH]; intros recs; simpl.
  - by intros [= <-].
  - destruct (dados_artigo a); [|done].
    destruct (registros rest) as [ds|]; [|done].
    intros [= <-]. simpl. f_equal. by apply IH.
Qed.

(** A page whose blocks all succeed is appended whole. *)
Lemma for_artigos_registros
    (artigos : list node) (todos recs : list (gmap string value)) :
  registros artigos = Some recs ->
  for_artigos artigos todos = (todos ++ recs, None).
Proof.
  revert todos recs. induction artigos as [|a rest IH]; intros todos recs; simpl.
  - intros [= <-]. by rewrite app_nil_r.
  - destruct (dados_artigo a) as [d|]; [|done].
    destruct (registros rest) as [ds|]; [|done].
    intros [= <-]. rewrite (IH _ ds) by done. by rewrite <- app_assoc.
Qed.

(** A block that raises leaves the loop, with the records of the blocks
    before it appended. *)
Lemma for_artigos_raise
    (n : nat) (artigos : list node) (a : node) (e : exn)
    (todos recs : list (gmap string value)) :
  registros (take n artigos) = Some recs ->
  artigos !! n = Some a ->
  dados_artigo a = Raise e ->
  for_artigos artigos todos = (todos ++ recs, Some e).
Proof.
  revert artigos todos recs.
  induction n as [|n IH]; intros [|b rest] todos recs; simpl; try done.
  - intros [= <-] [= ->] ->. by rewrite app_nil_r.
  - destruct (dados_artigo b) as [d|]; [|done].
    destruct (registros (take n rest)) as [ds|] eqn:E; [|done].
    intros [= <-] Ha Hr. rewrite (IH rest (todos ++ [d]) ds) by done.
    by rewrite <- app_assoc.
Qed.

Lemma for_artigos_forall (P : gmap string value -> Prop) (artigos : list node)
    (todos : list (gmap string value)) :
  (forall a d, dados_artigo a = Ok d -> P d) ->
  Forall P todos -> Forall P (for_artigos artigos todos).1.
Proof.
  intros HP. revert todos.
  induction artigos as [|a rest IH]; intros todos Htodos; simpl; [done|].
  destruct (dados_artigo a) as [d|] eqn:E; [|done].
  apply IH. apply Forall_app. split; [done|]. by repeat constructor; eauto.
Qed.

Lemma paginas_completas_S (k : nat) (acc' : list (gmap string value)) :
  paginas_completas (S k) = Some acc' ->
  exists acc a rest recs,
    paginas_completas k = Some acc
    /\ artigos_da_pagina (200 * k) = Some (a :: rest)
    /\ registros (a :: rest) = Some recs
    /\ acc' = acc ++ recs.
Proof.
  cbn [Arxiv.paginas_completas].
  destruct (paginas_completas k) as [acc|]; [|done].
  destruct (artigos_da_pagina (200 * k)) as [[|a rest]|]; try done.
  destruct (registros (a :: rest)) as [recs|] eqn:E; [|done].
  intros [= <-]. by exists acc, a, rest, recs.
Qed.

Lemma paginas_completas_step (k : nat) (acc recs : list (gmap string value))
    (artigos : list node) :
  paginas_completas k = Some acc ->
  artigos_da_pagina (200 * k) = Some artigos ->
  artigos <> [] ->
  registros artigos = Some recs ->
  paginas_completas (S k) = Some (acc ++ recs).
Proof.
  intros Hk Hart Hne Hrecs. cbn [Arxiv.paginas_completas].
  rewrite Hk, Hart. destruct artigos as [|a rest]; [done|]. by rewrite Hrecs.
Qed.

(** One turn of the loop on a page that is processed to its end. *)
Lemma pagina_completa (k : nat) (acc acc' : list (gmap string value)) :
  paginas_completas k = Some acc ->
  paginas_completas (S k) = Some acc' ->
  pagina (ao_chegar k acc) = (ao_chegar (S k) acc', None).
Proof.
  intros Hk (acc0 & a & rest & recs & Hk0 & Hart & Hrecs & ->)%paginas_completas_S.
  rewrite Hk in Hk0. injection Hk0 as <-.
  unfold Arxiv.pagina, Arxiv.artigos_da_pagina in *. cbn [start ao_chegar] in *.
  destruct (requests_get (200 * k)) as [|sc [soup|]];
    [done| |by destruct (raise_for_status sc)].
  destruct (raise_for_status sc); [done|].
  assert (find_all (py "li") (Some (py "arxiv-result")) soup = a :: rest)
    as -> by congruence.
  rewrite (for_artigos_registros _ _ recs) by done.
  unfold ao_chegar. rewrite offsets_S. cbn [todos_os_artigos requisicoes start].
  by replace (200 * S k) with (200 * k + 200) by lia.
Qed.

(** The loop reaches the page at offset 200 k when the pages before it
    are processed to their end. *)
Lemma while_true_prefix (k f : nat) (acc : list (gmap string value)) :
  paginas_completas k = Some acc ->
  while_true (k + f) inicio = while_true f (ao_chegar k acc).
Proof.
  revert f acc. induction k as [|k IH]; intros f acc Hk.
  - injection Hk as <-. done.
  - destruct (paginas_completas_S _ _ Hk) as (acc0 & a & rest & recs & Hk0 & _).
    replace (S k + f) with (k + S f) by lia.
    rewrite (IH _ acc0) by done. cbn [Arxiv.while_true].
    by rewrite (pagina_completa k acc0 acc).
Qed.

(** The turn of the loop that breaks decides the whole run. *)
Lemma run_breaks (k fuel : nat) (acc : list (gmap string value))
    (st : state) (why : stop) :
  paginas_completas k = Some acc ->
  pagina (ao_chegar k acc) = (st, Some why) ->
  k < fuel ->
  extrair_dados_arxiv_json fuel
  = Some {| final := st; motivo := why; saida := salvar disk_ok (todos_os_artigos st) |}.
Proof.
  intros Hk Hp Hf. unfold Arxiv.extrair_dados_arxiv_json.
  replace fuel with (k + S (fuel - S k)) by lia.
  rewrite (while_true_prefix _ _ acc) by done.
  cbn [Arxiv.while_true]. by rewrite Hp.
Qed.

End Loop.

(** * The fields of a record *)

Section Campos.

Variable Score : Type.
Variable extract_keywords : str -> nat * nat -> nat -> result (list (str * Score)).

Abbreviation dados_artigo := (dados_artigo Score extract_keywords).

(** C2 (amended).  The journal_revista field comes from the LAST paragraph
    of class "comments is-size-7" whose first span contains "Journal ref":
    it is the text of that paragraph with every "Journal ref:" removed, then
    stripped of surrounding whitespace, of surrounding double quotes and of
    whitespace again.  Without such a paragraph it is "N/A".  The paragraph
    text [Journal ref: "Phys. Rev. A 101, 2020"], when it is that last
    paragraph, gives [Phys. Rev. A 101, 2020]. *)
Theorem journal_from_last_paragraph (artigo : node) (rec : gmap string value) :
  dados_artigo artigo = Ok rec ->
  rec !! "journal_revista"%string = Some (journal_last artigo)
  /\ (journal_paragraphs artigo = [] ->
      rec !! "journal_revista"%string = Some (VStr (py "N/A")))
  /\ (forall p, last (journal_paragraphs artigo) = Some p ->
      rec !! "journal_revista"%string = Some (VStr (journal_ref_de (get_text p))))
  /\ (forall p, last (journal_paragraphs artigo) = Some p ->
      get_text p = py "Journal ref: " ++ [dquote] ++ py "Phys. Rev. A 101, 2020" ++ [dquote] ->
      rec !! "journal_revista"%string = Some (VStr (py "Phys. Rev. A 101, 2020"))).
Proof.
  intros (kws & _ & ->)%dados_artigo_ok. rewrite registro_journal.
  unfold journal_last. split; [done|]. split; [by intros ->|].
  split; [by intros p ->|]. intros p -> ->. done.
Qed.

(** C6.  When the authors element is present, the authors field is the list
    obtained from its text by removing the label "Authors:", collapsing
    whitespace runs to one space, splitting on commas and trimming each
    piece.  Said without the operations of the script: the text without its
    label is cut at the commas, and each author is the words of its piece
    (the maximal runs of characters that are not whitespace) with exactly
    one space between them.  The text "Authors: A. Smith, B. Jones,  C. Lee"
    gives ["A. Smith", "B. Jones", "C. Lee"], and a text whose names are
    spread over lines and padded with spaces gives the names with single
    spaces.  When the element is absent, the field is the string "N/A". *)
Theorem autores_split (artigo : node) (rec : gmap string value) :
  dados_artigo artigo = Ok rec ->
  (forall a, find (py "p") (Some (py "authors")) artigo = Some a ->
     rec !! "autores"%string = Some (VList (autores_spec (get_text a))))
  /\ (forall a, find (py "p") (Some (py "authors")) artigo = Some a ->
      rec !! "autores"%string = Some (VList (autores_palavras (get_text a))))
  /\ (forall a, find (py "p") (Some (py "authors")) artigo = Some a ->
      get_text a = py "Authors: A. Smith, B. Jones,  C. Lee" ->
      rec !! "autores"%string = Some (VList [py "A. Smith"; py "B. Jones"; py "C. Lee"]))
  /\ (forall a, find (py "p") (Some (py "authors")) artigo = Some a ->
      get_text a = texto_espacado ->
      rec !! "autores"%string = Some (VList [py "A. Smith"; py "B. Jones"]))
  /\ (find (py "p") (Some (py "authors")) artigo = None ->
      rec !! "autores"%string = Some (VStr (py "N/A"))).
Proof.
  intros (kws & _ & ->)%dados_artigo_ok. rewrite registro_autores.
  unfold autores_campo. split; [by intros a ->|].
  split; [intros a ->; by rewrite <- autores_de_palavras, autores_de_spec|].
  split; [by intros a -> ->|]. split; [|by intros ->].
  intros a -> ->. rewrite <- autores_de_spec, autores_de_palavras. done.
Qed.

(** C7.  When the metadata paragraph (the first paragraph of class
    "is-size-7") is present, the year field is the integer value of the
    first standalone token 20dd in its text before the first semicolon, and
    "N/A" when there is no such token there; the text
    "Submitted on 3 Jan 2022; revised 10 Feb 2023" gives 2022. *)
Theorem ano_first_token (artigo m : node) (rec : gmap string value) :
  dados_artigo artigo = Ok rec ->
  find (py "p") (Some (py "is-size-7")) artigo = Some m ->
  ((exists i y,
      token_at (before_semicolon (get_text m)) i = Some y
      /\ (forall j, j < i -> token_at (before_semicolon (get_text m)) j = None)
      /\ rec !! "ano"%string = Some (VInt y))
   \/ ((forall j, token_at (before_semicolon (get_text m)) j = None)
       /\ rec !! "ano"%string = Some (VStr (py "N/A"))))
  /\ (get_text m = py "Submitted on 3 Jan 2022; revised 10 Feb 2023" ->
      rec !! "ano"%string = Some (VInt 2022)).
Proof.
  intros (kws & _ & ->)%dados_artigo_ok Hm. rewrite registro_ano.
  unfold ano_de. rewrite Hm. split; [|by intros ->].
  pose proof (search_year_spec (before_semicolon (get_text m))) as H.
  destruct (search_year (before_semicolon (get_text m))) as [g|].
  - left. destruct H as (i & Htok & Hmin). by exists i, (int_of g).
  - by right.
Qed.

(** C8.  The categories field is the texts of the primary tags in document
    order followed by the texts of the secondary tags in document order;
    primary tags "cs.AI", "quant-ph" and a secondary tag "physics.gen-ph"
    give ["cs.AI", "quant-ph", "physics.gen-ph"]; without tags of either
    class the field is the empty sequence. *)
Theorem categorias_concat (artigo : node) (rec : gmap string value) :
  dados_artigo artigo = Ok rec ->
  rec !! "categorias"%string
  = Some (VList
      (map (fun t => strip (get_text t))
         (find_all (py "span") (Some primary_class) artigo)
       ++ map (fun t => strip (get_text t))
            (find_all (py "span") (Some secondary_class) artigo)))
  /\ (map (fun t => strip (get_text t))
        (find_all (py "span") (Some primary_class) artigo)
      = [py "cs.AI"; py "quant-ph"] ->
      map (fun t => strip (get_text t))
        (find_all (py "span") (Some secondary_class) artigo)
      = [py "physics.gen-ph"] ->
      rec !! "categorias"%string
      = Some (VList [py "cs.AI"; py "quant-ph"; py "physics.gen-ph"]))
  /\ (find_all (py "span") (Some primary_class) artigo = [] ->
      find_all (py "span") (Some secondary_class) artigo = [] ->
      rec !! "categorias"%string = Some (VList [])).
Proof.
  intros (kws & _ & ->)%dados_artigo_ok. rewrite registro_categorias.
  unfold categorias_spec. split; [done|]. split.
  - by intros -> ->.
  - by intros -> ->.
Qed.

(** C9.  The year field of a record is the string "N/A" or an integer
    from 2000 to 2099. *)
Theorem ano_range (artigo : node) (rec : gmap string value) :
  dados_artigo artigo = Ok rec ->
  rec !! "ano"%string = Some (VStr (py "N/A"))
  \/ exists y, rec !! "ano"%string = Some (VInt y) /\ (2000 <= y <= 2099)%Z.
Proof.
  intros (kws & _ & ->)%dados_artigo_ok. rewrite registro_ano.
  unfold ano_de. destruct (find _ _ artigo) as [m|]; [|by left].
  destruct (search_year (before_semicolon (get_text m))) as [g|] eqn:E;
    [|by left].
  right. exists (int_of g). split; [done|]. by apply search_year_range in E.
Qed.

End Campos.

(** ** The keywords of a block without abstract *)

Lemma tokenize_NA : KeyBERT.tokenize (map KeyBERT.lower (py "N/A")) = [].
Proof. reflexivity. Qed.

(** C1.  When the abstract element of a result block is absent, the
    abstract field is the sentinel "N/A" and the keywords field is the empty
    sequence.  The script passes the sentinel to the model as it passes any
    abstract; the text "N/A" has no token of two word characters or more, so
    the model has no candidate phrase and answers with no keyword, whatever
    its stop words and its ranking. *)
Theorem keywords_empty_without_abstract
    (Score : Type) (stop_word : str -> bool)
    (rank : str -> list str -> nat * nat -> nat -> result (list (str * Score)))
    (artigo : node) :
  find (py "span") (Some (py "abstract-full")) artigo = None ->
  KeyBERT.extract_keywords Score stop_word rank (py "N/A") (1, 3) 3 = Ok []
  /\ exists rec,
       dados_artigo Score (KeyBERT.extract_keywords Score stop_word rank) artigo
       = Ok rec
       /\ rec !! "abstract"%string = Some (VStr (py "N/A"))
       /\ rec !! "keywords"%string = Some (VList []).
Proof.
  intros Habs.
  assert (KeyBERT.extract_keywords Score stop_word rank (py "N/A") (1, 3) 3 = Ok [])
    as Hkw.
  { unfold KeyBERT.extract_keywords, KeyBERT.analyze. by rewrite tokenize_NA. }
  split; [exact Hkw|].
  assert (abstract_de artigo = py "N/A") as E
    by (unfold abstract_de; by rewrite Habs).
  exists (registro artigo []). rewrite dados_artigo_eq, E, Hkw.
  rewrite registro_abstract, registro_keywords, E. done.
Qed.

(** * The pagination loop *)

Section Paginacao.

Variable Score : Type.
Variable extract_keywords : str -> nat * nat -> nat -> result (list (str * Score)).
Variable requests_get : nat -> response.
Variable disk_ok : bool.

Abbreviation for_artigos := (for_artigos Score extract_keywords).
Abbreviation registros := (registros Score extract_keywords).
Abbreviation pagina := (pagina Score extract_keywords requests_get).
Abbreviation while_true := (while_true Score extract_keywords requests_get).
Abbreviation paginas_completas :=
  (paginas_completas Score extract_keywords requests_get).
Abbreviation artigos_da_pagina := (artigos_da_pagina requests_get).
Abbreviation falha_de_transporte := (falha_de_transporte requests_get).
Abbreviation extrair_dados_arxiv_json :=
  (extrair_dados_arxiv_json Score extract_keywords requests_get disk_ok).

(** The three ways a turn of the loop breaks. *)
Lemma pagina_vazia (st : state) :
  artigos_da_pagina (start st) = Some [] ->
  pagina st
  = ({| start := start st; todos_os_artigos := todos_os_artigos st;
        requisicoes := requisicoes st ++ [start st] |}, Some Concluida).
Proof.
  unfold Arxiv.artigos_da_pagina, Arxiv.pagina.
  destruct (requests_get (start st)) as [|sc [soup|]];
    [done| |by destruct (raise_for_status sc)].
  destruct (raise_for_status sc); [done|].
  intros H.
  assert (find_all (py "li") (Some (py "arxiv-result")) soup = []) as ->
    by congruence.
  done.
Qed.

Lemma pagina_falha (st : state) :
  falha_de_transporte (start st) = true ->
  pagina st
  = ({| start := start st; todos_os_artigos := todos_os_artigos st;
        requisicoes := requisicoes st ++ [start st] |}, Some ErroRequisicao).
Proof.
  unfold Arxiv.falha_de_transporte, Arxiv.pagina.
  destruct (requests_get (start st)) as [|sc [soup|]]; [done| |]; by intros ->.
Qed.

Lemma pagina_raise (st : state) (artigos : list node) (n : nat) (a : node)
    (e : exn) (recs : list (gmap string value)) :
  artigos_da_pagina (start st) = Some artigos ->
  registros (take n artigos) = Some recs ->
  artigos !! n = Some a ->
  dados_artigo Score extract_keywords a = Raise e ->
  pagina st
  = ({| start := start st; todos_os_artigos := todos_os_artigos st ++ recs;
        requisicoes := requisicoes st ++ [start st] |}, Some (handler e)).
Proof.
  unfold Arxiv.artigos_da_pagina, Arxiv.pagina.
  destruct (requests_get (start st)) as [|sc [soup|]];
    [done| |by destruct (raise_for_status sc)].
  destruct (raise_for_status sc); [done|].
  intros H Hrecs Ha He.
  assert (find_all (py "li") (Some (py "arxiv-result")) soup = artigos) as ->
    by congruence.
  rewrite (for_artigos_raise _ _ n artigos a e _ recs) by done.
  by destruct artigos.
Qed.

(** Every turn keeps a property that all records have. *)
Lemma pagina_forall (P : gmap string value -> Prop) (st : state) :
  (forall a d, dados_artigo Score extract_keywords a = Ok d -> P d) ->
  Forall P (todos_os_artigos st) ->
  Forall P (todos_os_artigos (pagina st).1).
Proof.
  intros HP Hst. unfold Arxiv.pagina.
  destruct (requests_get (start st)) as [|sc [soup|]];
    [done| |by destruct (raise_for_status sc)].
  destruct (raise_for_status sc); [done|].
  destruct (find_all (py "li") (Some (py "arxiv-result")) soup) as [|a rest];
    [done|].
  pose proof (for_artigos_forall Score extract_keywords P (a :: rest) _ HP Hst)
    as H.
  destruct (for_artigos (a :: rest) (todos_os_artigos st)) as [todos [e|]];
    exact H.
Qed.

Lemma while_true_forall (P : gmap string value -> Prop) (fuel : nat)
    (st st' : state) (why : stop) :
  (forall a d, dados_artigo Score extract_keywords a = Ok d -> P d) ->
  Forall P (todos_os_artigos st) ->
  while_true fuel st = Some (st', why) ->
  Forall P (todos_os_artigos st').
Proof.
  intros HP. revert st. induction fuel as [|fuel IH]; intros st Hst; [done|].
  cbn [Arxiv.while_true].
  pose proof (pagina_forall P st HP Hst) as H.
  destruct (pagina st) as [st1 [why1|]]; simpl in H.
  - by intros [= <- <-].
  - by apply IH.
Qed.

(** A turn that does not break has processed its page to the end. *)
Lemma for_artigos_none (artigos : list node) (todos todos' : list (gmap string value)) :
  for_artigos artigos todos = (todos', None) ->
  exists recs, registros artigos = Some recs /\ todos' = todos ++ recs.
Proof.
  revert todos. induction artigos as [|a rest IH]; intros todos; simpl.
  - intros [= <-]. exists []. by rewrite app_nil_r.
  - destruct (dados_artigo Score extract_keywords a) as [d|]; [|done].
    intros (recs & -> & ->)%IH. exists (d :: recs). by rewrite <- app_assoc.
Qed.

Lemma pagina_continua (k : nat) (acc : list (gmap string value)) (st : state) :
  paginas_completas k = Some acc ->
  pagina (ao_chegar k acc) = (st, None) ->
  exists acc', paginas_completas (S k) = Some acc' /\ st = ao_chegar (S k) acc'.
Proof.
  intros Hk. cbn [Arxiv.paginas_completas]. rewrite Hk.
  unfold Arxiv.pagina, Arxiv.artigos_da_pagina.
  cbn [start todos_os_artigos requisicoes ao_chegar].
  destruct (requests_get (200 * k)) as [|sc [soup|]];
    [done| |by destruct (raise_for_status sc)].
  destruct (raise_for_status sc); [done|].
  destruct (find_all (py "li") (Some (py "arxiv-result")) soup) as [|a rest];
    [done|].
  destruct (for_artigos (a :: rest) acc) as [todos [e|]] eqn:E; [done|].
  apply for_artigos_none in E as (recs & -> & ->).
  intros [= <-]. exists (acc ++ recs). split; [done|].
  unfold ao_chegar. rewrite offsets_S.
  by replace (200 * S k) with (200 * k + 200) by lia.
Qed.

(** A run that ends was left by the turn of some page that the loop
    reached. *)
Lemma while_true_reach (fuel k : nat) (acc : list (gmap string value))
    (st : state) (why : stop) :
  paginas_completas k = Some acc ->
  while_true fuel (ao_chegar k acc) = Some (st, why) ->
  exists k' acc',
    paginas_completas k' = Some acc'
    /\ pagina (ao_chegar k' acc') = (st, Some why).
Proof.
  revert k acc. induction fuel as [|fuel IH]; intros k acc Hk; [done|].
  cbn [Arxiv.while_true].
  destruct (pagina (ao_chegar k acc)) as [st1 [why1|]] eqn:E.
  - intros [= <- <-]. by exists k, acc.
  - destruct (pagina_continua _ _ _ Hk E) as (acc1 & Hk1 & ->). by apply IH.
Qed.

Lemma pagina_requisicoes (st st' : state) (o : option stop) :
  pagina st = (st', o) -> requisicoes st' = requisicoes st ++ [start st].
Proof.
  unfold Arxiv.pagina.
  destruct (requests_get (start st)) as [|sc [soup|]];
    [by intros [= <- _]| |destruct (raise_for_status sc); by intros [= <- _]].
  destruct (raise_for_status sc); [by intros [= <- _]|].
  destruct (find_all (py "li") (Some (py "arxiv-result")) soup) as [|a rest];
    [by intros [= <- _]|].
  destruct (for_artigos (a :: rest) (todos_os_artigos st)) as [todos [e|]];
    by intros [= <- _].
Qed.

(** The pages before a page the loop reaches had result blocks. *)
Lemma paginas_completas_antes (k i : nat) (acc : list (gmap string value)) :
  paginas_completas k = Some acc -> i < k ->
  exists a rest, artigos_da_pagina (200 * i) = Some (a :: rest).
Proof.
  revert acc. induction k as [|k IH]; intros acc Hk Hi; [lia|].
  destruct (paginas_completas_S _ _ _ _ _ Hk)
    as (acc0 & a & rest & recs & Hk0 & Hart & _).
  destruct (decide (i = k)) as [->|]; [by exists a, rest|].
  apply (IH acc0); [done|lia].
Qed.

(** C3.  When a page that the run fetches has no result block, the loop
    terminates normally and no request is made after that page.  First,
    when the loop reaches the page at offset 200 k (the pages before it were
    fetched and processed to their end) and that page is empty, the run
    terminates for every bound on the number of pages above k, it ends
    normally, the request of that page is its last request and the
    accumulator is what it was on reaching the page.  Second, in every run
    that ends, a requested page that is empty is the last request of the
    run, and the run ended normally. *)
Theorem empty_page_ends_loop (o : nat) :
  artigos_da_pagina o = Some [] ->
  (forall k acc,
     o = 200 * k ->
     paginas_completas k = Some acc ->
     forall fuel, k < fuel ->
     exists r,
       extrair_dados_arxiv_json fuel = Some r
       /\ motivo r = Concluida
       /\ requisicoes (final r) = offsets k ++ [o]
       /\ todos_os_artigos (final r) = acc
       /\ saida r = salvar disk_ok acc)
  /\ (forall fuel r,
       extrair_dados_arxiv_json fuel = Some r ->
       In o (requisicoes (final r)) ->
       last (requisicoes (final r)) = Some o /\ motivo r = Concluida).
Proof.
  intros Hempty. split.
  - intros k acc -> Hk fuel Hfuel.
    pose proof (pagina_vazia (ao_chegar k acc) Hempty) as Hp.
    eexists. split; [by apply (run_breaks _ _ _ _ _ _ _ _ _ Hk Hp)|].
    by repeat split.
  - intros fuel r. unfold Arxiv.extrair_dados_arxiv_json.
    destruct (while_true fuel inicio) as [[st why]|] eqn:E; [|done].
    intros [= <-]. cbn [final motivo].
    change inicio with (ao_chegar 0 []) in E.
    apply while_true_reach in E as (k & acc & Hk & Hp); [|done].
    pose proof (pagina_requisicoes _ _ _ Hp) as Hreq.
    cbn [requisicoes start ao_chegar] in Hreq. rewrite Hreq.
    intros [Hin| [<-|[]]]%in_app_or.
    + apply in_map_iff in Hin as (i & <- & [_ Hi]%in_seq).
      destruct (paginas_completas_antes _ i _ Hk) as (a & rest & Hart); [lia|].
      congruence.
    + rewrite last_snoc. split; [done|].
      rewrite (pagina_vazia (ao_chegar k acc) Hempty) in Hp. congruence.
Qed.

(** C4 (amended).  When the request of a page fails (the request raises, or
    the status is 4xx or 5xx), the run terminates without asking for that
    page again or for another one, and the accumulator holds exactly the
    records of the pages processed before.  The output file is written with
    exactly these records when there is at least one and the disk accepts
    the write; when no record was accumulated, no file is written.  After
    [k] pages of [n] records each, the accumulator holds [k * n] records:
    400 for a failure on the third page after two pages of 200. *)
Theorem transport_failure_saves_partial (k : nat) (acc : list (gmap string value)) :
  paginas_completas k = Some acc ->
  falha_de_transporte (200 * k) = true ->
  forall fuel, k < fuel ->
  exists r,
    extrair_dados_arxiv_json fuel = Some r
    /\ motivo r = ErroRequisicao
    /\ requisicoes (final r) = offsets k ++ [200 * k]
    /\ todos_os_artigos (final r) = acc
    /\ (acc <> [] -> disk_ok = true -> saida r = Escrito acc)
    /\ (acc = [] -> saida r = NaoEscrito)
    /\ (forall n,
          (forall i, i < k ->
             exists artigos, artigos_da_pagina (200 * i) = Some artigos
                             /\ length artigos = n) ->
          length acc = k * n)
    /\ (k = 2 ->
        (forall i, i < 2 ->
           exists artigos, artigos_da_pagina (200 * i) = Some artigos
                           /\ length artigos = 200) ->
        disk_ok = true ->
        exists conteudo, saida r = Escrito conteudo /\ length conteudo = 400).
Proof.
  intros Hk Hfail fuel Hfuel.
  pose proof (pagina_falha (ao_chegar k acc) Hfail) as Hp.
  assert (forall n,
            (forall i, i < k ->
               exists artigos, artigos_da_pagina (200 * i) = Some artigos
                               /\ length artigos = n) ->
            length acc = k * n) as Hlen.
  { clear Hfail Hp Hfuel. revert acc Hk. induction k as [|k' IH]; intros acc Hk n Hn.
    - by injection Hk as <-.
    - destruct (paginas_completas_S _ _ _ _ _ Hk)
        as (acc0 & a & rest & recs & Hk0 & Hart & Hrecs & ->).
      destruct (Hn k') as (artigos & Hart' & Hlen); [lia|].
      rewrite Hart in Hart'. injection Hart' as <-.
      rewrite length_app, (IH acc0 Hk0 n) by (intros i Hi; apply Hn; lia).
      apply registros_length in Hrecs. rewrite Hrecs, Hlen. lia. }
  eexists. split; [by apply (run_breaks _ _ _ _ _ _ _ _ _ Hk Hp)|].
  cbn. split; [done|]. split; [done|]. split; [done|].
  split; [|split; [by intros ->|split; [done|]]].
  - intros Hne ->. by destruct acc.
  - intros -> Hpages ->. specialize (Hlen 200 Hpages).
    exists acc. split; [|done]. destruct acc; [done|]. done.
Qed.

(** C5.  Every record appended to the accumulator has the seven keys
    titulo, autores, abstract, keywords, categorias, ano and
    journal_revista, and no other: the record of every block has them, a
    turn of the loop only adds such records, and so the accumulator and the
    file of every run hold only such records. *)
Theorem records_have_seven_fields :
  (forall artigo rec,
     dados_artigo Score extract_keywords artigo = Ok rec -> sete_campos rec)
  /\ (forall st,
       Forall sete_campos (todos_os_artigos st) ->
       Forall sete_campos (todos_os_artigos (pagina st).1))
  /\ (forall fuel r,
       extrair_dados_arxiv_json fuel = Some r ->
       Forall sete_campos (todos_os_artigos (final r))
       /\ forall conteudo, saida r = Escrito conteudo ->
                           Forall sete_campos conteudo).
Proof.
  assert (forall artigo rec,
            dados_artigo Score extract_keywords artigo = Ok rec ->
            sete_campos rec) as Hrec.
  { intros a d (kws & _ & ->)%dados_artigo_ok. split.
    - intros k Hk. unfold campos in Hk.
      repeat (apply elem_of_cons in Hk as [->|Hk];
              [unfold registro; by simplify_map_eq|]).
      by apply elem_of_nil in Hk.
    - unfold registro, campos. rewrite !dom_insert_L, dom_empty_L. set_solver. }
  split; [exact Hrec|]. split; [intros st; by apply pagina_forall|].
  intros fuel r. unfold Arxiv.extrair_dados_arxiv_json.
  destruct (while_true fuel inicio) as [[st why]|] eqn:E; [|done].
  intros [= <-]. cbn [final saida].
  assert (Forall sete_campos (todos_os_artigos st)) as Hst
    by (eapply while_true_forall; [exact Hrec| |exact E]; by constructor).
  split; [exact Hst|]. intros conteudo. unfold salvar.
  destruct (todos_os_artigos st) as [|d ds]; [done|].
  destruct disk_ok; [|done]. by intros [= <-].
Qed.

(** C10.  When the k-th result block of a page raises (k > 1), the records
    of the first k-1 blocks of that page are in the accumulator, after the
    records of the pages before, when the loop is left; the run terminates
    and the file is written with them when the disk accepts the write. *)
Theorem mid_page_failure_keeps_records
    (p : nat) (acc : list (gmap string value)) (artigos : list node)
    (k : nat) (a : node) (e : exn) (recs : list (gmap string value)) :
  paginas_completas p = Some acc ->
  artigos_da_pagina (200 * p) = Some artigos ->
  1 < k ->
  registros (take (k - 1) artigos) = Some recs ->
  artigos !! (k - 1) = Some a ->
  dados_artigo Score extract_keywords a = Raise e ->
  forall fuel, p < fuel ->
  exists r,
    extrair_dados_arxiv_json fuel = Some r
    /\ motivo r = handler e
    /\ (e = OtherException -> motivo r = ErroInesperado)
    /\ length recs = k - 1
    /\ todos_os_artigos (final r) = acc ++ recs
    /\ (disk_ok = true -> saida r = Escrito (acc ++ recs)).
Proof.
  intros Hp Hart Hk Hrecs Ha He fuel Hfuel.
  pose proof (pagina_raise (ao_chegar p acc) artigos (k - 1) a e recs
                Hart Hrecs Ha He) as Hpg.
  assert (length recs = k - 1) as Hlen.
  { apply registros_length in Hrecs. rewrite Hrecs, length_take.
    apply lookup_lt_Some in Ha. lia. }
  eexists. split; [by apply (run_breaks _ _ _ _ _ _ _ _ _ Hp Hpg)|].
  cbn. split; [done|]. split; [by intros ->|]. split; [done|]. split; [done|].
  intros ->. destruct recs as [|d recs]; [simpl in Hlen; lia|].
  by destruct acc.
Qed.

End Paginacao.

(** * Concrete runs *)

(** ** The samples, evaluated *)

Lemma abstract_sem_abstract : abstract_de sem_abstract = py "N/A".
Proof. vm_compute. reflexivity. Qed.

Lemma abstract_duas_refs : abstract_de duas_refs = py "N/A".
Proof. vm_compute. reflexivity. Qed.

Lemma abstract_completo : abstract_de completo = py "Walks on graphs.".
Proof. vm_compute. reflexivity. Qed.

Lemma dados_sem_abstract_eco :
  dados_artigo Z kw_eco sem_abstract = Ok registro_sem_abstract.
Proof. rewrite dados_artigo_eq, abstract_sem_abstract. reflexivity. Qed.

Lemma dados_duas_refs_eco :
  dados_artigo Z kw_eco duas_refs = Ok (registro duas_refs [py "N/A"]).
Proof. rewrite dados_artigo_eq, abstract_duas_refs. reflexivity. Qed.

Lemma dados_duas_refs_nada :
  dados_artigo Z kw_nada duas_refs = Ok (registro duas_refs []).
Proof. rewrite dados_artigo_eq. reflexivity. Qed.

Lemma dados_completo_eco : dados_artigo Z kw_eco completo = Ok registro_completo.
Proof. rewrite dados_artigo_eq, abstract_completo. reflexivity. Qed.

Lemma dados_completo_fragil :
  dados_artigo Z kw_fragil completo = Ok registro_completo.
Proof. rewrite dados_artigo_eq, abstract_completo. reflexivity. Qed.

Lemma dados_sem_abstract_fragil :
  dados_artigo Z kw_fragil sem_abstract = Raise OtherException.
Proof. rewrite dados_artigo_eq, abstract_sem_abstract. reflexivity. Qed.

Lemma registros_repeat (Score : Type)
    (kw : str -> nat * nat -> nat -> result (list (str * Score)))
    (a : node) (d : gmap string value) (n : nat) :
  dados_artigo Score kw a = Ok d ->
  registros Score kw (repeat a n) = Some (repeat d n).
Proof.
  intros H. induction n as [|n IH]; simpl; [done|]. by rewrite H, IH.
Qed.

Lemma artigos_servidor_curto_0 :
  artigos_da_pagina servidor_curto 0 = Some [completo; duas_refs].
Proof. vm_compute. reflexivity. Qed.

Lemma artigos_servidor_curto_200 : artigos_da_pagina servidor_curto 200 = Some [].
Proof. vm_compute. reflexivity. Qed.

Lemma artigos_servidor_400 (o : nat) :
  o = 0 \/ o = 200 ->
  artigos_da_pagina servidor_400 o = Some (repeat completo 200).
Proof.
  intros Ho.
  assert (servidor_400 o = pagina_de (repeat completo 200)) as E
    by (by destruct Ho as [->| ->]).
  unfold artigos_da_pagina. rewrite E. reflexivity.
Qed.

Lemma artigos_servidor_misto :
  artigos_da_pagina servidor_misto 0
  = Some [completo; completo; sem_abstract; completo].
Proof. vm_compute. reflexivity. Qed.

Lemma completas_servidor_curto :
  paginas_completas Z kw_eco servidor_curto 1
  = Some [registro_completo; registro duas_refs [py "N/A"]].
Proof.
  cbn [paginas_completas]. change (200 * 0) with 0.
  rewrite artigos_servidor_curto_0.
  cbn [registros]. rewrite dados_completo_eco, dados_duas_refs_eco. reflexivity.
Qed.

Lemma completas_servidor_400 :
  paginas_completas Z kw_eco servidor_400 2 = Some (repeat registro_completo 400).
Proof.
  change (repeat registro_completo 400)
    with (([] ++ repeat registro_completo 200) ++ repeat registro_completo 200).
  apply paginas_completas_step with (artigos := repeat completo 200).
  - apply paginas_completas_step with (artigos := repeat completo 200).
    + reflexivity.
    + apply artigos_servidor_400. by left.
    + discriminate.
    + apply registros_repeat, dados_completo_eco.
  - apply artigos_servidor_400. by right.
  - discriminate.
  - apply registros_repeat, dados_completo_eco.
Qed.

Lemma corrida_servidor_curto :
  extrair_dados_arxiv_json Z kw_eco servidor_curto true 3 = Some corrida_curta.
Proof.
  pose proof (pagina_vazia Z kw_eco servidor_curto
                (ao_chegar 1 [registro_completo; registro duas_refs [py "N/A"]])
                artigos_servidor_curto_200) as Hp.
  rewrite (run_breaks _ _ _ true 1 3 _ _ _ completas_servidor_curto Hp) by lia.
  reflexivity.
Qed.

(** ** Witnesses and counterexamples *)

(** C2 as stated fails: the block [duas_refs] has two journal paragraphs;
    the field comes from the second, not from the first. *)
Lemma journal_not_from_first_paragraph :
  exists rec,
    dados_artigo Z kw_nada duas_refs = Ok rec
    /\ rec !! "journal_revista"%string = Some (VStr (py "Nature 7, 2021"))
    /\ journal_first duas_refs = VStr (py "Phys. Rev. A 101, 2020")
    /\ rec !! "journal_revista"%string <> Some (journal_first duas_refs).
Proof.
  exists (registro duas_refs []).
  split; [apply dados_duas_refs_nada|]. rewrite registro_journal.
  assert (journal_last duas_refs = VStr (py "Nature 7, 2021")) as ->
    by (vm_compute; reflexivity).
  assert (journal_first duas_refs = VStr (py "Phys. Rev. A 101, 2020")) as ->
    by (vm_compute; reflexivity).
  repeat split. discriminate.
Qed.

Lemma journal_from_last_paragraph_witness :
  registro_sem_abstract !! "journal_revista"%string
  = Some (VStr (py "Phys. Rev. A 101, 2020")).
Proof.
  refine (proj2 (proj2 (proj2
    (journal_from_last_paragraph Z kw_eco sem_abstract registro_sem_abstract _)))
    (journal_p [txt " "; NavigableString [dquote];
                txt "Phys. Rev. A 101, 2020"; NavigableString [dquote]]) _ _).
  - apply dados_sem_abstract_eco.
  - vm_compute; reflexivity.
  - vm_compute; reflexivity.
Defined.

Lemma abstract_autores_espacados : abstract_de autores_espacados = py "N/A".
Proof. vm_compute. reflexivity. Qed.

Lemma dados_autores_espacados_eco :
  dados_artigo Z kw_eco autores_espacados
  = Ok (registro autores_espacados [py "N/A"]).
Proof. rewrite dados_artigo_eq, abstract_autores_espacados. reflexivity. Qed.

Lemma autores_split_witness :
  registro_sem_abstract !! "autores"%string
  = Some (VList [py "A. Smith"; py "B. Jones"; py "C. Lee"])
  /\ registro autores_espacados [py "N/A"] !! "autores"%string
     = Some (VList [py "A. Smith"; py "B. Jones"]).
Proof.
  split.
  - refine (proj1 (proj2 (proj2
      (autores_split Z kw_eco sem_abstract registro_sem_abstract _)))
      (tag "p" ["authors"]%string
          [ tag "span" ["search-hit"]%string [txt "Authors:"];
            txt " "; tag "a" [] [txt "A. Smith"]; txt ", ";
            tag "a" [] [txt "B. Jones"]; txt ",  "; tag "a" [] [txt "C. Lee"] ]) _ _).
    + apply dados_sem_abstract_eco.
    + vm_compute; reflexivity.
    + vm_compute; reflexivity.
  - destruct (find (py "p") (Some (py "authors")) autores_espacados) as [a|] eqn:E;
      [|by vm_compute in E].
    refine (proj1 (proj2 (proj2 (proj2
      (autores_split Z kw_eco autores_espacados
         (registro autores_espacados [py "N/A"]) _)))) a E _).
    + apply dados_autores_espacados_eco.
    + vm_compute in E. injection E as <-. vm_compute; reflexivity.
Defined.

Lemma ano_first_token_witness :
  registro_sem_abstract !! "ano"%string = Some (VInt 2022).
Proof.
  refine (proj2
    (ano_first_token Z kw_eco sem_abstract metadata_p registro_sem_abstract _ _) _).
  - apply dados_sem_abstract_eco.
  - vm_compute; reflexivity.
  - vm_compute; reflexivity.
Defined.

Lemma categorias_concat_witness :
  registro_sem_abstract !! "categorias"%string
  = Some (VList [py "cs.AI"; py "quant-ph"; py "physics.gen-ph"]).
Proof.
  refine (proj1 (proj2
    (categorias_concat Z kw_eco sem_abstract registro_sem_abstract _)) _ _).
  - apply dados_sem_abstract_eco.
  - vm_compute; reflexivity.
  - vm_compute; reflexivity.
Defined.

Lemma ano_range_witness :
  registro_sem_abstract !! "ano"%string = Some (VStr (py "N/A"))
  \/ exists y, registro_sem_abstract !! "ano"%string = Some (VInt y)
               /\ (2000 <= y <= 2099)%Z.
Proof.
  apply (ano_range Z kw_eco sem_abstract registro_sem_abstract).
  apply dados_sem_abstract_eco.
Defined.

Lemma empty_page_ends_loop_witness :
  (exists r,
     extrair_dados_arxiv_json Z kw_eco servidor_curto true 2 = Some r
     /\ motivo r = Concluida
     /\ requisicoes (final r) = offsets 1 ++ [200]
     /\ todos_os_artigos (final r) = [registro_completo; registro duas_refs [py "N/A"]]
     /\ saida r = salvar true [registro_completo; registro duas_refs [py "N/A"]])
  /\ last (requisicoes (final corrida_curta)) = Some 200
  /\ motivo corrida_curta = Concluida.
Proof.
  destruct (empty_page_ends_loop Z kw_eco servidor_curto true 200) as [H1 H2].
  - apply artigos_servidor_curto_200.
  - split.
    + apply (H1 1 [registro_completo; registro duas_refs [py "N/A"]]).
      * reflexivity.
      * apply completas_servidor_curto.
      * lia.
    + apply (H2 3 corrida_curta).
      * apply corrida_servidor_curto.
      * right. left. reflexivity.
Defined.

(** C4 as stated fails: when the first request fails, the run ends with an
    empty accumulator and no file is written. *)
Lemma transport_failure_writes_no_file :
  falha_de_transporte servidor_fora 0 = true
  /\ extrair_dados_arxiv_json Z kw_eco servidor_fora true 1
     = Some {| final := {| start := 0; todos_os_artigos := []; requisicoes := [0] |};
               motivo := ErroRequisicao;
               saida := NaoEscrito |}.
Proof. split; reflexivity. Qed.

Lemma transport_failure_saves_partial_witness :
  exists r,
    extrair_dados_arxiv_json Z kw_eco servidor_400 true 3 = Some r
    /\ requisicoes (final r) = [0; 200; 400]
    /\ exists conteudo, saida r = Escrito conteudo /\ length conteudo = 400.
Proof.
  destruct (transport_failure_saves_partial Z kw_eco servidor_400 true 2
              (repeat registro_completo 400)) with (fuel := 3)
    as (r & Hr & _ & Hreq & _ & _ & _ & _ & H400).
  - apply completas_servidor_400.
  - reflexivity.
  - lia.
  - exists r. split; [exact Hr|]. split; [exact Hreq|].
    apply H400; [reflexivity| |reflexivity].
    intros i Hi. exists (repeat completo 200). split.
    + apply artigos_servidor_400. lia.
    + apply repeat_length.
Defined.

Lemma records_have_seven_fields_witness :
  sete_campos registro_completo
  /\ Forall sete_campos [registro_completo; registro duas_refs [py "N/A"]].
Proof.
  destruct (records_have_seven_fields Z kw_eco servidor_curto true)
    as (Hrec & _ & Hrun).
  split.
  - apply (Hrec completo). apply dados_completo_eco.
  - exact (proj1 (Hrun 3 corrida_curta corrida_servidor_curto)).
Defined.

Lemma mid_page_failure_keeps_records_witness :
  exists r,
    extrair_dados_arxiv_json Z kw_fragil servidor_misto true 1 = Some r
    /\ motivo r = handler OtherException
    /\ (OtherException = OtherException -> motivo r = ErroInesperado)
    /\ length [registro_completo; registro_completo] = 3 - 1
    /\ todos_os_artigos (final r) = [] ++ [registro_completo; registro_completo]
    /\ (true = true -> saida r = Escrito ([] ++ [registro_completo; registro_completo])).
Proof.
  apply (mid_page_failure_keeps_records Z kw_fragil servidor_misto true 0 []
           [completo; completo; sem_abstract; completo] 3 sem_abstract
           OtherException [registro_completo; registro_completo]).
  - reflexivity.
  - apply artigos_servidor_misto.
  - lia.
  - cbn [Nat.sub take registros]. rewrite dados_completo_fragil. reflexivity.
  - reflexivity.
  - apply dados_sem_abstract_fragil.
  - lia.
Defined.

(** * More on the loop *)

Section Corrida.

Variable Score : Type.
Variable extract_keywords : str -> nat * nat -> nat -> result (list (str * Score)).
Variable requests_get : nat -> response.
Variable disk_ok : bool.

Abbreviation dados := (dados_artigo Score extract_keywords).
Abbreviation for_artigos := (for_artigos Score extract_keywords).
Abbreviation registros := (registros Score extract_keywords).
Abbreviation pagina := (pagina Score extract_keywords requests_get).
Abbreviation while_true := (while_true Score extract_keywords requests_get).
Abbreviation paginas_completas :=
  (paginas_completas Score extract_keywords requests_get).
Abbreviation artigos_da_pagina := (artigos_da_pagina requests_get).
Abbreviation falha_de_transporte := (falha_de_transporte requests_get).
Abbreviation falha_de_analise := (falha_de_analise requests_get).
Abbreviation extrair_dados_arxiv_json :=
  (extrair_dados_arxiv_json Score extract_keywords requests_get disk_ok).

(** The [for] loop left by an exception: the block that raised and the
    records appended before it. *)
Lemma for_artigos_some (artigos : list node) (todos todos' : list (gmap string value))
    (e : exn) :
  for_artigos artigos todos = (todos', Some e) ->
  exists n a recs,
    registros (take n artigos) = Some recs
    /\ artigos !! n = Some a
    /\ dados a = Raise e
    /\ todos' = todos ++ recs.
Proof.
  revert todos. induction artigos as [|a rest IH]; intros todos; simpl; [done|].
  destruct (dados a) as [d|e'] eqn:Ha.
  - intros (n & b & recs & Hrecs & Hb & He & ->)%IH.
    exists (S n), b, (d :: recs). simpl. rewrite Ha, Hrecs.
    by rewrite <- app_assoc.
  - intros [= <- <-]. exists 0, a, []. by rewrite app_nil_r.
Qed.

(** The turn that leaves the loop, read backwards. *)
Lemma pagina_break_inv (k : nat) (acc : list (gmap string value))
    (st : state) (why : stop) :
  pagina (ao_chegar k acc) = (st, Some why) ->
  start st = 200 * k
  /\ requisicoes st = offsets (S k)
  /\ ((why = Concluida /\ artigos_da_pagina (200 * k) = Some []
       /\ todos_os_artigos st = acc)
      \/ (why = ErroRequisicao /\ falha_de_transporte (200 * k) = true
          /\ todos_os_artigos st = acc)
      \/ (why = ErroInesperado /\ falha_de_analise (200 * k) = true
          /\ todos_os_artigos st = acc)
      \/ (exists artigos n a e recs,
            artigos_da_pagina (200 * k) = Some artigos
            /\ registros (take n artigos) = Some recs
            /\ artigos !! n = Some a
            /\ dados a = Raise e
            /\ why = handler e
            /\ todos_os_artigos st = acc ++ recs)).
Proof.
  unfold Arxiv.pagina, Arxiv.artigos_da_pagina, Arxiv.falha_de_transporte,
    Arxiv.falha_de_analise.
  cbn [start todos_os_artigos requisicoes ao_chegar]. rewrite <- offsets_S.
  destruct (requests_get (200 * k)) as [|sc [soup|]].
  { intros [= <- <-]. cbn. split; [done|]. split; [done|]. right. by left. }
  2:{ destruct (raise_for_status sc); intros [= <- <-]; cbn;
        (split; [done|]); (split; [done|]); right; [by left|right; by left]. }
  destruct (raise_for_status sc).
  { intros [= <- <-]. cbn. split; [done|]. split; [done|]. right. by left. }
  destruct (find_all (py "li") (Some (py "arxiv-result")) soup) as [|a rest].
  { intros [= <- <-]. cbn. split; [done|]. split; [done|]. by left. }
  destruct (for_artigos (a :: rest) acc) as [todos [e|]] eqn:E; [|done].
  intros [= <- <-]. cbn. split; [done|]. split; [done|]. right. right. right.
  apply for_artigos_some in E as (n & b & recs & Hrecs & Hb & He & ->).
  by exists (a :: rest), n, b, e, recs.
Qed.

(** A run that ends was left at a page that the loop reached within its
    bound. *)
Lemma while_true_reach_bound (fuel k : nat) (acc : list (gmap string value))
    (st : state) (why : stop) :
  paginas_completas k = Some acc ->
  while_true fuel (ao_chegar k acc) = Some (st, why) ->
  exists k' acc',
    k <= k' < k + fuel
    /\ paginas_completas k' = Some acc'
    /\ acc `prefix_of` acc'
    /\ pagina (ao_chegar k' acc') = (st, Some why).
Proof.
  revert k acc. induction fuel as [|fuel IH]; intros k acc Hk; [done|].
  cbn [Arxiv.while_true].
  destruct (pagina (ao_chegar k acc)) as [st1 [why1|]] eqn:E.
  - intros [= <- <-]. exists k, acc. split; [lia|]. done.
  - destruct (pagina_continua _ _ _ _ _ _ Hk E) as (acc1 & Hk1 & ->).
    intros (k' & acc' & Hk' & Hc & Hpre & Hp)%IH; [|done].
    exists k', acc'. split; [lia|]. split; [done|]. split; [|done].
    destruct (paginas_completas_S _ _ _ _ _ Hk1)
      as (acc0 & a & rest & recs & Hk0 & _ & _ & ->).
    rewrite Hk in Hk0. injection Hk0 as <-.
    by eapply prefix_app_l.
Qed.

(** Every run that ends, read backwards. *)
Lemma run_inversion (fuel : nat) (r : run) :
  extrair_dados_arxiv_json fuel = Some r ->
  exists k acc,
    k < fuel
    /\ paginas_completas k = Some acc
    /\ pagina (ao_chegar k acc) = (final r, Some (motivo r))
    /\ saida r = salvar disk_ok (todos_os_artigos (final r)).
Proof.
  unfold Arxiv.extrair_dados_arxiv_json.
  destruct (while_true fuel inicio) as [[st why]|] eqn:E; [|done].
  intros [= <-]. cbn [final motivo saida].
  change inicio with (ao_chegar 0 []) in E.
  apply while_true_reach_bound in E as (k & acc & Hk & Hc & _ & Hp); [|done].
  exists k, acc. split; [lia|]. done.
Qed.

Lemma offsets_lookup (n i o : nat) :
  offsets n !! i = Some o <-> i < n /\ o = 200 * i.
Proof.
  induction n as [|n IH].
  - split; [done|lia].
  - rewrite offsets_S. destruct (decide (i < n)) as [Hi|Hi].
    + rewrite lookup_app_l by (unfold offsets; rewrite length_map, length_seq; lia).
      rewrite IH. split; intros [? ?]; split; (done || lia).
    + rewrite lookup_app_r by (unfold offsets; rewrite length_map, length_seq; lia).
      unfold offsets at 1. rewrite length_map, length_seq.
      destruct (i - n) as [|j] eqn:E; simpl.
      * split; [intros [= <-]; split; lia|].
        intros [? ->]. f_equal. lia.
      * split; [done|lia].
Qed.

Lemma paginas_completas_le (k k' : nat) (acc : list (gmap string value)) :
  paginas_completas k = Some acc -> k' <= k ->
  exists acc', paginas_completas k' = Some acc'.
Proof.
  revert acc. induction k as [|k IH]; intros acc Hk Hle.
  - replace k' with 0 by lia. by exists acc.
  - destruct (decide (k' = S k)) as [->|]; [by exists acc|].
    destruct (paginas_completas_S _ _ _ _ _ Hk) as (acc0 & _ & _ & _ & Hk0 & _).
    apply (IH acc0); [done|lia].
Qed.

(** The requests of a run are the offsets 0, 200, 400, ... in this order,
    each one once, up to the page at which the loop was left; a run bounded
    by [fuel] pages makes at most [fuel] requests. *)
Theorem requests_are_offsets (fuel : nat) (r : run) :
  extrair_dados_arxiv_json fuel = Some r ->
  exists k,
    k < fuel
    /\ start (final r) = 200 * k
    /\ length (requisicoes (final r)) = S k
    /\ (forall i o, requisicoes (final r) !! i = Some o -> o = 200 * i)
    /\ last (requisicoes (final r)) = Some (200 * k)
    /\ NoDup (requisicoes (final r)).
Proof.
  intros (k & acc & Hk & _ & Hp & _)%run_inversion.
  apply pagina_break_inv in Hp as (Hstart & Hreq & _).
  exists k. rewrite Hreq. split; [done|]. split; [done|].
  split; [unfold offsets; by rewrite length_map, length_seq|].
  split; [by intros i o [_ ->]%offsets_lookup|].
  split; [by rewrite offsets_S, last_snoc|].
  apply NoDup_alt. intros i j o [_ ->]%offsets_lookup [_ Hj]%offsets_lookup. lia.
Qed.

(** The way a run ends tells what happened at the last page requested: a
    normal end means that page had no result block; an unexpected error
    means the parser rejected that page or one of its blocks raised such an
    error; a request error means the request failed, or a block raised a
    request error. *)
Theorem stop_reason_cause (fuel : nat) (r : run) :
  extrair_dados_arxiv_json fuel = Some r ->
  exists o,
    last (requisicoes (final r)) = Some o
    /\ (motivo r = Concluida -> artigos_da_pagina o = Some [])
    /\ (motivo r = ErroInesperado ->
        falha_de_analise o = true
        \/ exists artigos a,
             artigos_da_pagina o = Some artigos /\ a ∈ artigos
             /\ dados a = Raise OtherException)
    /\ (motivo r = ErroRequisicao ->
        falha_de_transporte o = true
        \/ exists artigos a,
             artigos_da_pagina o = Some artigos /\ a ∈ artigos
             /\ dados a = Raise RequestException).
Proof.
  intros (k & acc & Hk & _ & Hp & _)%run_inversion.
  apply pagina_break_inv in Hp as (_ & Hreq & Hcases).
  exists (200 * k). rewrite Hreq, offsets_S, last_snoc. split; [done|].
  destruct Hcases
    as [(-> & He & _)|[(-> & Hf & _)|[(-> & Hf & _)
        |(artigos & n & a & e & recs & Ha & _ & Hn & He & -> & _)]]].
  - done.
  - split; [done|]. split; [done|]. by left.
  - split; [done|]. split; [by left|done].
  - apply list_elem_of_lookup_2 in Hn.
    destruct e; cbn; (split; [done|]); split; try done.
    + intros _. right. by exists artigos, a.
    + intros _. right. by exists artigos, a.
Qed.

(** The loop does not stop while pages have results and nothing raises:
    when the first [k] pages are processed to their end, a run bounded by
    [k] pages or fewer has not ended. *)
Theorem no_stop_on_full_pages (k : nat) (acc : list (gmap string value)) :
  paginas_completas k = Some acc ->
  forall fuel, fuel <= k -> extrair_dados_arxiv_json fuel = None.
Proof.
  intros Hk fuel Hfuel.
  destruct (extrair_dados_arxiv_json fuel) as [r|] eqn:E; [|done].
  apply run_inversion in E as (k' & acc' & Hk' & Hc' & Hp & _).
  destruct (paginas_completas_le _ (S k') _ Hk) as (acc1 & Hc1); [lia|].
  by rewrite (pagina_completa _ _ _ _ _ _ Hc' Hc1) in Hp.
Qed.

Lemma registros_Forall2 (artigos : list node) (recs : list (gmap string value)) :
  registros artigos = Some recs ->
  Forall2 (fun a d => dados a = Ok d) artigos recs.
Proof.
  revert recs. induction artigos as [|a rest IH]; intros recs; simpl.
  - intros [= <-]. constructor.
  - destruct (dados a) as [d|] eqn:Ha; [|done].
    destruct (registros rest) as [ds|]; [|done].
    intros [= <-]. constructor; [done|]. by apply IH.
Qed.

Lemma paginas_completas_concat (k : nat) (acc : list (gmap string value)) :
  paginas_completas k = Some acc ->
  exists pages,
    length pages = k
    /\ acc = concat pages
    /\ forall i, i < k ->
         exists artigos recs,
           artigos_da_pagina (200 * i) = Some artigos
           /\ pages !! i = Some recs
           /\ Forall2 (fun a d => dados a = Ok d) artigos recs.
Proof.
  revert acc. induction k as [|k IH]; intros acc Hk.
  - injection Hk as <-. exists []. split; [done|]. split; [done|]. lia.
  - destruct (paginas_completas_S _ _ _ _ _ Hk)
      as (acc0 & a & rest & recs & Hk0 & Hart & Hrecs & ->).
    destruct (IH _ Hk0) as (pages & Hlen & -> & Hpages).
    exists (pages ++ [recs]). split; [rewrite length_app; simpl; lia|].
    split; [by rewrite concat_app; simpl; rewrite app_nil_r|].
    intros i Hi. destruct (decide (i = k)) as [->|Hne].
    + exists (a :: rest), recs. split; [done|]. split.
      * rewrite lookup_app_r by lia. by rewrite Hlen, Nat.sub_diag.
      * by apply registros_Forall2.
    + destruct (Hpages i) as (artigos & recs' & ? & ? & ?); [lia|].
      exists artigos, recs'. split; [done|]. split; [|done].
      by rewrite lookup_app_l by lia.
Qed.

(** The accumulator of a run holds the records in the order of discovery:
    page after page, and inside a page block after block, one record for
    each block; of the last page requested it holds the records of the
    blocks before the one that raised, if any. *)
Theorem accumulator_in_discovery_order (fuel : nat) (r : run) :
  extrair_dados_arxiv_json fuel = Some r ->
  exists k pages parcial,
    length (requisicoes (final r)) = S k
    /\ length pages = k
    /\ todos_os_artigos (final r) = concat pages ++ parcial
    /\ (forall i, i < k ->
          exists artigos recs,
            artigos_da_pagina (200 * i) = Some artigos
            /\ pages !! i = Some recs
            /\ Forall2 (fun a d => dados a = Ok d) artigos recs)
    /\ (parcial = []
        \/ exists artigos n,
             artigos_da_pagina (200 * k) = Some artigos
             /\ n < length artigos
             /\ Forall2 (fun a d => dados a = Ok d) (take n artigos) parcial).
Proof.
  intros (k & acc & Hk & Hc & Hp & _)%run_inversion.
  apply pagina_break_inv in Hp as (_ & Hreq & Hcases).
  destruct (paginas_completas_concat _ _ Hc) as (pages & Hlen & -> & Hpages).
  assert (length (requisicoes (final r)) = S k) as Hl
    by (rewrite Hreq; unfold offsets; by rewrite length_map, length_seq).
  destruct Hcases
    as [(_ & _ & Ht)|[(_ & _ & Ht)|[(_ & _ & Ht)
        |(artigos & n & a & e & recs & Ha & Hr & Hn & _ & _ & Ht)]]].
  - exists k, pages, []. rewrite app_nil_r. by repeat split; try left.
  - exists k, pages, []. rewrite app_nil_r. by repeat split; try left.
  - exists k, pages, []. rewrite app_nil_r. by repeat split; try left.
  - exists k, pages, recs. repeat split; try done. right.
    exists artigos, n. split; [done|]. split; [by apply lookup_lt_Some in Hn|].
    by apply registros_Forall2.
Qed.

Lemma for_artigos_prefix (artigos : list node) (todos : list (gmap string value)) :
  todos `prefix_of` (for_artigos artigos todos).1.
Proof.
  revert todos. induction artigos as [|a rest IH]; intros todos; simpl; [done|].
  destruct (dados a) as [d|]; [|done].
  by eapply prefix_app_l.
Qed.

Lemma pagina_prefix (st : state) :
  todos_os_artigos st `prefix_of` todos_os_artigos (pagina st).1.
Proof.
  unfold Arxiv.pagina.
  destruct (requests_get (start st)) as [|sc [soup|]];
    [done| |by destruct (raise_for_status sc)].
  destruct (raise_for_status sc); [done|].
  destruct (find_all (py "li") (Some (py "arxiv-result")) soup) as [|a rest];
    [done|].
  pose proof (for_artigos_prefix (a :: rest) (todos_os_artigos st)) as H.
  by destruct (for_artigos (a :: rest) (todos_os_artigos st)) as [todos [e|]].
Qed.

(** The accumulator only grows at its end: a turn of the loop, and the
    whole loop from any state, keep the records already there, in place and
    unchanged. *)
Theorem accumulator_append_only (fuel : nat) (st st' : state) (why : stop) :
  while_true fuel st = Some (st', why) ->
  todos_os_artigos st `prefix_of` todos_os_artigos (pagina st).1
  /\ todos_os_artigos st `prefix_of` todos_os_artigos st'.
Proof.
  split; [apply pagina_prefix|]. revert st H.
  induction fuel as [|fuel IH]; intros st; [done|]. cbn [Arxiv.while_true].
  pose proof (pagina_prefix st) as Hp.
  destruct (pagina st) as [st1 [why1|]]; simpl in Hp.
  - by intros [= <- <-].
  - intros H%IH. by etrans.
Qed.

(** Only the keyword model can make the processing of a block raise: a
    missing element never does.  With a model that always answers, a run
    ends normally, or on a request error because the last request failed,
    or on an unexpected error because the parser rejected the last page:
    never because of a block. *)
Theorem only_the_model_raises :
  (forall artigo e,
     dados artigo = Raise e
     <-> extract_keywords (abstract_de artigo) (1, 3) 3 = Raise e)
  /\ ((forall text, exists kws, extract_keywords text (1, 3) 3 = Ok kws) ->
      forall fuel r,
        extrair_dados_arxiv_json fuel = Some r ->
        exists o,
          last (requisicoes (final r)) = Some o
          /\ (motivo r = Concluida
              \/ (motivo r = ErroRequisicao /\ falha_de_transporte o = true)
              \/ (motivo r = ErroInesperado /\ falha_de_analise o = true))).
Proof.
  assert (forall artigo e,
            dados artigo = Raise e
            <-> extract_keywords (abstract_de artigo) (1, 3) 3 = Raise e) as H.
  { intros artigo e. rewrite dados_artigo_eq.
    destruct (extract_keywords (abstract_de artigo) (1, 3) 3);
      [split; discriminate | split; by intros [= ->]]. }
  split; [exact H|]. intros Htotal fuel r (k & acc & Hk & _ & Hp & _)%run_inversion.
  apply pagina_break_inv in Hp as (_ & Hreq & Hcases).
  exists (200 * k). rewrite Hreq, offsets_S, last_snoc. split; [done|].
  destruct Hcases
    as [(-> & _)|[(-> & Hf & _)|[(-> & Hf & _)
        |(artigos & n & a & e & recs & _ & _ & _ & He & _)]]].
  - by left.
  - right. by left.
  - right. by right.
  - apply H in He. destruct (Htotal (abstract_de a)) as [kws Hk']. congruence.
Qed.

End Corrida.

(** * More on the fields *)

(** ** Trimmed strings *)

Lemma last_rev (s : str) : last (rev s) = head s.
Proof. destruct s as [|c s]; [done|]. simpl. by rewrite last_snoc. Qed.

Lemma head_rev (s : str) : head (rev s) = last s.
Proof. by rewrite <- last_rev, rev_involutive. Qed.

Section Aparar.

Variable f : ascii -> bool.

Lemma lstrip_by_head (s : str) (c : ascii) :
  head (lstrip_by f s) = Some c -> f c = false.
Proof.
  induction s as [|a s IH]; simpl; [done|].
  destruct (f a) eqn:E; [done|]. simpl. by intros [= <-].
Qed.

Lemma lstrip_by_id (s : str) :
  (forall c, head s = Some c -> f c = false) -> lstrip_by f s = s.
Proof. destruct s as [|a s]; simpl; [done|]. intros H. by rewrite H. Qed.

Lemma strip_by_head (s : str) (c : ascii) :
  head (strip_by f s) = Some c -> f c = false.
Proof.
  unfold strip_by. intros H.
  destruct (rstrip_by_split f (lstrip_by f s)) as (w & _ & E).
  apply (lstrip_by_head s). rewrite E.
  by destruct (rstrip_by f (lstrip_by f s)).
Qed.

Lemma strip_by_last (s : str) (c : ascii) :
  last (strip_by f s) = Some c -> f c = false.
Proof.
  unfold strip_by, rstrip_by. rewrite last_rev. apply lstrip_by_head.
Qed.

Lemma strip_by_idem (s : str) : strip_by f (strip_by f s) = strip_by f s.
Proof.
  set (t := strip_by f s). unfold strip_by at 1.
  rewrite (lstrip_by_id t) by apply strip_by_head.
  unfold rstrip_by. rewrite lstrip_by_id, rev_involutive; [done|].
  intros c. rewrite head_rev. apply strip_by_last.
Qed.

Lemma strip_by_In (s : str) (c : ascii) : In c (strip_by f s) -> In c s.
Proof.
  destruct (strip_by_decompose f s) as (w1 & w2 & _ & _ & E).
  intros H. rewrite E. apply in_or_app. right. apply in_or_app. by left.
Qed.

End Aparar.

Lemma strip_aparado (s : str) : aparado (strip s).
Proof.
  split; [apply strip_by_idem|]. split; [apply strip_by_head|apply strip_by_last].
Qed.

Lemma NA_aparado : aparado (py "N/A").
Proof.
  split; [done|]. split; intros c; cbn; by intros [= <-].
Qed.

Section CamposMais.

Variable Score : Type.
Variable extract_keywords : str -> nat * nat -> nat -> result (list (str * Score)).

Abbreviation dados_de := (dados_artigo Score extract_keywords).

(** The strings of a record are trimmed: the title, the abstract, each
    author, each category and the journal reference neither start nor end
    with whitespace, and [strip] leaves them as they are.  When the authors
    field is a string, it is "N/A". *)
Theorem record_strings_are_trimmed (artigo : node) (rec : gmap string value) :
  dados_de artigo = Ok rec ->
  (forall s, rec !! "titulo"%string = Some (VStr s) -> aparado s)
  /\ (forall s, rec !! "abstract"%string = Some (VStr s) -> aparado s)
  /\ (forall l, rec !! "autores"%string = Some (VList l) -> Forall aparado l)
  /\ (forall s, rec !! "autores"%string = Some (VStr s) -> s = py "N/A")
  /\ (forall l, rec !! "categorias"%string = Some (VList l) -> Forall aparado l)
  /\ (forall s, rec !! "journal_revista"%string = Some (VStr s) -> aparado s).
Proof.
  intros (kws & _ & ->)%dados_artigo_ok.
  rewrite registro_titulo, registro_abstract, registro_autores,
    registro_categorias, registro_journal.
  split; [|split; [|split; [|split; [|split]]]].
  - unfold titulo_de. destruct (find _ _ artigo); intros s [= <-];
      [apply strip_aparado | apply NA_aparado].
  - intros s [= <-]. unfold abstract_de.
    destruct (find _ _ artigo); [|apply NA_aparado]. cbv zeta.
    destruct (startswith _ _); apply strip_aparado.
  - unfold autores_campo. destruct (find _ _ artigo); [|done].
    intros l [= <-]. unfold autores_spec. apply List.Forall_forall.
    intros x (p & <- & _)%in_map_iff. apply strip_aparado.
  - unfold autores_campo. destruct (find _ _ artigo); [done|]. by intros s [= <-].
  - intros l [= <-]. unfold categorias_spec. apply Forall_app.
    split; apply List.Forall_forall; intros x (p & <- & _)%in_map_iff;
      apply strip_aparado.
  - unfold journal_last. destruct (last _); intros s [= <-];
      [apply strip_aparado | apply NA_aparado].
Qed.

(** The keywords of a record are the phrases the model returns for the
    text of the abstract field, in the model's order, one for each entry of
    its answer: the script neither reorders nor truncates them. *)
Theorem keywords_follow_model (artigo : node) (rec : gmap string value) :
  dados_de artigo = Ok rec ->
  exists text kws l,
    rec !! "abstract"%string = Some (VStr text)
    /\ extract_keywords text (1, 3) 3 = Ok kws
    /\ rec !! "keywords"%string = Some (VList l)
    /\ length l = length kws
    /\ forall i, l !! i = fst <$> kws !! i.
Proof.
  intros (kws & Hkws & ->)%dados_artigo_ok.
  exists (abstract_de artigo), kws, (map fst kws).
  rewrite registro_abstract, registro_keywords, length_map.
  repeat split; try done. intros i. apply list_lookup_fmap.
Qed.

End CamposMais.

(** ** Counting commas *)

Lemma replace_from_skip (old new : str) (k : nat) (s : str) :
  replace_from old new k s = replace_from old new 0 (drop k s).
Proof.
  revert k. induction s as [|c s IH]; intros [|k]; try done.
  cbn [replace_from drop]. apply IH.
Qed.

Lemma startswith_app (old s : str) :
  startswith old s = true -> s = old ++ drop (length old) s.
Proof.
  revert s. induction old as [|a old IH]; intros [|c s]; simpl; try done.
  intros [Ha Hs%IH]%andb_prop. apply Ascii.eqb_eq in Ha as ->.
  by rewrite <- Hs.
Qed.

Lemma count_replace (ch : ascii) (old : str) :
  old <> [] -> count_occ ascii_dec old ch = 0 ->
  forall s, count_occ ascii_dec (replace old [] s) ch = count_occ ascii_dec s ch.
Proof.
  intros Hne Hold.
  assert (forall n s, length s <= n ->
            count_occ ascii_dec (replace old [] s) ch = count_occ ascii_dec s ch)
    as H; [|by intros s; apply (H (length s))].
  induction n as [|n IH]; intros [|c s] Hlen; simpl in Hlen; try done; [lia|].
  unfold replace. cbn [replace_from].
  destruct (startswith old (c :: s)) eqn:E.
  - apply startswith_app in E. rewrite replace_from_skip. cbn [app].
    destruct old as [|o old]; [done|]. cbn [length drop] in *.
    replace (S (length old) - 1) with (length old) by lia.
    set (rest := drop (length old) s) in *. rewrite E.
    rewrite count_occ_app, Hold. apply IH. unfold rest. rewrite length_drop. lia.
  - change (replace_from old [] 0 s) with (replace old [] s).
    simpl. destruct (ascii_dec c ch); rewrite IH by lia; done.
Qed.

Lemma count_space (ch : ascii) (w : str) :
  isspace ch = false -> forallb isspace w = true -> count_occ ascii_dec w ch = 0.
Proof.
  intros Hch Hw. apply count_occ_not_In. intros Hin.
  rewrite forallb_forall in Hw. specialize (Hw _ Hin). congruence.
Qed.

Lemma count_strip (ch : ascii) (s : str) :
  isspace ch = false ->
  count_occ ascii_dec (strip s) ch = count_occ ascii_dec s ch.
Proof.
  intros Hch.
  destruct (strip_by_decompose isspace s) as (w1 & w2 & H1 & H2 & E).
  rewrite E at 2.
  rewrite !count_occ_app, (count_space ch w1), (count_space ch w2) by done.
  unfold strip. lia.
Qed.

Lemma count_sub_ws (ch : ascii) (b : bool) (s : str) :
  isspace ch = false ->
  count_occ ascii_dec (sub_ws_from b s) ch = count_occ ascii_dec s ch.
Proof.
  intros Hch. revert b. induction s as [|c s IH]; intros b; [done|].
  cbn [sub_ws_from]. destruct (isspace c) eqn:Hc.
  - assert (c <> ch) by congruence. assert (" "%char <> ch)
      by (intros <-; by vm_compute in Hch).
    rewrite (count_occ_cons_neq _ s) by done.
    destruct b; [apply IH|]. rewrite count_occ_cons_neq by done. apply IH.
  - simpl. destruct (ascii_dec c ch); by rewrite IH.
Qed.

Lemma length_split (sep : ascii) (s : str) :
  length (split sep s) = S (count_occ ascii_dec s sep).
Proof.
  induction s as [|c s IH]; [done|]. cbn [split]. unfold chr_eqb.
  destruct (Ascii.eqb_spec c sep) as [->|Hne].
  - rewrite count_occ_cons_eq by done. simpl. by rewrite IH.
  - rewrite count_occ_cons_neq by done.
    destruct (split sep s); simpl in *; [lia|done].
Qed.

Lemma split_no_sep (sep : ascii) (s : str) :
  Forall (fun p => ~ In sep p) (split sep s).
Proof.
  induction s as [|c s IH]; [simpl; constructor; [by intros []|constructor]|].
  cbn [split]. unfold chr_eqb.
  destruct (Ascii.eqb_spec c sep) as [->|Hne]; [constructor; [by intros []|done]|].
  destruct (split sep s) as [|p ps]; [repeat constructor; by intros [?|[]]|].
  inversion IH as [|? ? Hp Hps]; subst. constructor; [|done].
  by intros [?|?].
Qed.

(** The authors are the pieces between the commas of the text of the
    authors element: there is one author more than there are commas, so the
    list is never empty, and no author contains a comma. *)
Theorem authors_one_per_comma (text : str) :
  length (autores_de text) = S (virgulas text)
  /\ autores_de text <> []
  /\ Forall (fun a => ~ In ","%char a) (autores_de text).
Proof.
  assert (length (autores_de text) = S (virgulas text)) as Hlen.
  { unfold autores_de, virgulas. rewrite length_map, length_split.
    rewrite count_strip by done. unfold re_sub_ws.
    rewrite count_sub_ws by done. rewrite count_strip by done.
    by rewrite count_replace. }
  split; [done|]. split; [by destruct (autores_de text)|].
  unfold autores_de. apply List.Forall_forall.
  intros a (p & <- & Hp)%in_map_iff Hin. apply strip_by_In in Hin.
  pose proof (split_no_sep ","
    (strip (re_sub_ws (strip (replace (py "Authors:") (py "") text))))) as H.
  rewrite List.Forall_forall in H. by apply (H p).
Qed.

(** ** Whitespace inside the authors *)

Lemma sem_brancos_seguidos_cons (a x : ascii) (t : str) :
  sem_brancos_seguidos (a :: x :: t)
  = negb (isspace a && isspace x) && sem_brancos_seguidos (x :: t).
Proof. done. Qed.

Lemma sub_ws_from_shape (b : bool) (s : str) :
  Forall (fun c => isspace c = true -> c = " "%char) (sub_ws_from b s)
  /\ sem_brancos_seguidos (sub_ws_from b s) = true
  /\ (b = true -> forall c, head (sub_ws_from b s) = Some c -> isspace c = false).
Proof.
  revert b. induction s as [|c s IH]; intros b; [done|].
  cbn [sub_ws_from]. destruct (isspace c) eqn:Hc.
  - destruct (IH true) as (Hall & Hsbs & Hhead). destruct b; [done|].
    split; [by constructor|]. split; [|done].
    destruct (sub_ws_from true s) as [|x t] eqn:E; [done|].
    rewrite sem_brancos_seguidos_cons, Hsbs, (Hhead eq_refl x) by done.
    by rewrite andb_false_r.
  - destruct (IH false) as (Hall & Hsbs & _).
    split; [constructor; [congruence|done]|]. split.
    + destruct (sub_ws_from false s) as [|x t] eqn:E; [done|].
      by rewrite sem_brancos_seguidos_cons, Hsbs, Hc.
    + intros _ x [= <-]. done.
Qed.

Lemma sem_brancos_seguidos_app (a b : str) :
  sem_brancos_seguidos (a ++ b) = true ->
  sem_brancos_seguidos a = true /\ sem_brancos_seguidos b = true.
Proof.
  induction a as [|x a IH]; [done|]. destruct a as [|y a].
  - destruct b as [|y b]; [done|]. cbn [app].
    rewrite sem_brancos_seguidos_cons. by intros [_ ?]%andb_prop.
  - cbn [app] in *. rewrite !sem_brancos_seguidos_cons.
    intros [Hxy [H Hb]%IH]%andb_prop. by rewrite Hxy, H.
Qed.

Lemma split_pieces (sep : ascii) (s : str) :
  match split sep s with
  | [] => False
  | q :: qs =>
      (exists b, s = q ++ b)
      /\ forall p, In p qs -> exists a b, s = a ++ p ++ b
  end.
Proof.
  induction s as [|c s IH]; [split; [by exists []|by intros p []]|].
  cbn [split]. destruct (chr_eqb c sep).
  - split; [by exists (c :: s)|]. intros p Hp.
    destruct (split sep s) as [|q qs]; [done|]. destruct IH as [[b Hb] Hqs].
    destruct Hp as [<-|Hp].
    + exists [c], b. by rewrite Hb at 1.
    + destruct (Hqs p Hp) as (a & b' & E). exists (c :: a), b'. by rewrite E at 1.
  - destruct (split sep s) as [|q qs]; [done|]. destruct IH as [[b Hb] Hqs].
    split; [exists b; by rewrite Hb at 1|]. intros p Hp.
    destruct (Hqs p Hp) as (a & b' & E). exists (c :: a), b'. by rewrite E at 1.
Qed.

Section Infix.

(** A property of strings that every part of a string inherits. *)
Variable P : str -> Prop.
Hypothesis P_infix : forall a b c, P (a ++ b ++ c) -> P b.

Lemma P_strip (s : str) : P s -> P (strip s).
Proof.
  destruct (strip_by_decompose isspace s) as (w1 & w2 & _ & _ & E).
  intros H. rewrite E in H. by apply P_infix in H.
Qed.

Lemma P_split (sep : ascii) (s : str) : P s -> Forall P (split sep s).
Proof.
  intros H. pose proof (split_pieces sep s) as Hs.
  destruct (split sep s) as [|q qs]; [done|]. destruct Hs as [[b Hb] Hqs].
  constructor.
  - apply (P_infix [] q b). by rewrite <- Hb.
  - apply List.Forall_forall. intros p (a & b' & E)%Hqs.
    apply (P_infix a p b'). by rewrite <- E.
Qed.

End Infix.

(** Inside an author, whitespace is a single space: no author holds a tab
    or a line break, nor two whitespace characters in a row. *)
Theorem authors_whitespace_collapsed (text : str) :
  Forall
    (fun a =>
       sem_brancos_seguidos a = true
       /\ Forall (fun c => isspace c = true -> c = " "%char) a)
    (autores_de text).
Proof.
  set (P := fun a : str =>
              sem_brancos_seguidos a = true
              /\ Forall (fun c => isspace c = true -> c = " "%char) a).
  assert (forall a b c, P (a ++ b ++ c) -> P b) as Hinfix.
  { intros a b c [H1 H2]. split.
    - apply sem_brancos_seguidos_app in H1 as [_ H1].
      by apply sem_brancos_seguidos_app in H1 as [H1 _].
    - apply Forall_app in H2 as [_ H2]. by apply Forall_app in H2 as [H2 _]. }
  unfold autores_de. apply Forall_fmap.
  assert (P (re_sub_ws (strip (replace (py "Authors:") (py "") text)))) as H0.
  { destruct (sub_ws_from_shape false
                (strip (replace (py "Authors:") (py "") text))) as (? & ? & _).
    by split. }
  apply (P_strip P Hinfix) in H0. apply (P_split P Hinfix ","%char) in H0.
  eapply Forall_impl; [exact H0|]. intros p Hp. by apply (P_strip P Hinfix).
Qed.

(** * More on the queries *)

Lemma split_without_sep (sep : ascii) (x : str) :
  existsb (chr_eqb sep) x = false -> split sep x = [x].
Proof.
  induction x as [|c x IH]; [done|]. simpl.
  intros [Hc Hx]%orb_false_elim. unfold chr_eqb in *. rewrite Ascii.eqb_sym, Hc.
  by rewrite IH.
Qed.

(** Splitting at spaces what [" ".join] joined gives the pieces back, when
    no piece holds a space. *)
Lemma split_join_sp (cls : list str) :
  cls <> [] ->
  forallb (fun c => negb (existsb (chr_eqb " ") c)) cls = true ->
  split " " (join_sp cls) = cls.
Proof.
  induction cls as [|x cls IH]; [done|]. intros _ [Hx Hcls]%andb_prop.
  apply negb_true_iff in Hx. destruct cls as [|y cls].
  - by apply split_without_sep.
  - change (join_sp (x :: y :: cls))
      with (x ++ " "%char :: join_sp (y :: cls)).
    destruct (split_app_l " " x (" "%char :: join_sp (y :: cls)))
      as (p & ps & Hv & Hxv).
    { apply forallb_forall. intros c Hc. apply negb_true_iff.
      destruct (chr_eqb c " ") eqn:E; [|done].
      apply Ascii.eqb_eq in E as ->.
      assert (existsb (chr_eqb " ") x = true) as H; [|congruence].
      apply existsb_exists. exists " "%char. by split. }
    rewrite Hxv.
    change (split " " (" "%char :: join_sp (y :: cls)))
      with ([] :: split " " (join_sp (y :: cls))) in Hv.
    injection Hv as <- <-. rewrite app_nil_r. f_equal. by apply IH.
Qed.

Lemma comments_class_has_is_size_7 (t : node) :
  classes_sem_espaco t = true ->
  tag_matches (py "p") (Some (py "comments is-size-7")) t = true ->
  tag_matches (py "p") (Some (py "is-size-7")) t = true.
Proof.
  destruct t as [s|nm cls cs]; [done|]. cbn [classes_sem_espaco tag_matches].
  intros Hcls [Hnm Hm]%andb_prop. rewrite Hnm. cbn [andb].
  unfold class_matches in Hm. apply orb_prop in Hm as [Hm|Hm].
  - apply existsb_exists in Hm as (c & Hc & E).
    apply bool_decide_eq_true in E as <-.
    rewrite forallb_forall in Hcls. specialize (Hcls _ Hc). by vm_compute in Hcls.
  - apply bool_decide_eq_true in Hm.
    assert (cls <> []) as Hne by (by intros ->).
    pose proof (split_join_sp cls Hne Hcls) as E. rewrite Hm in E.
    by rewrite <- E.
Qed.

(** A paragraph of class "comments is-size-7" also passes the filter
    "is-size-7" by which the script looks for the metadata paragraph: the
    year is searched in the first paragraph that carries the class
    "is-size-7", a comments paragraph included, and a block with a comments
    paragraph always has such a paragraph. *)
Theorem comments_paragraph_is_metadata_candidate (artigo : node) :
  (forall t, In t (descendants artigo) -> classes_sem_espaco t = true) ->
  (forall t,
     In t (find_all (py "p") (Some (py "comments is-size-7")) artigo) ->
     In t (find_all (py "p") (Some (py "is-size-7")) artigo))
  /\ (find_all (py "p") (Some (py "comments is-size-7")) artigo <> [] ->
      find (py "p") (Some (py "is-size-7")) artigo <> None).
Proof.
  intros Hcls.
  assert (forall t,
            In t (find_all (py "p") (Some (py "comments is-size-7")) artigo) ->
            In t (find_all (py "p") (Some (py "is-size-7")) artigo)) as H.
  { unfold find_all. intros t [Hin Hm]%filter_In. apply filter_In.
    split; [done|]. apply comments_class_has_is_size_7; [by apply Hcls|done]. }
  split; [exact H|]. unfold find.
  destruct (find_all (py "p") (Some (py "comments is-size-7")) artigo)
    as [|t ts]; [done|].
  intros _. specialize (H t (or_introl eq_refl)).
  by destruct (find_all (py "p") (Some (py "is-size-7")) artigo).
Qed.

Lemma spaced_class_not_a_value (wanted : str) (cls : list str) :
  existsb (chr_eqb " ") wanted = true ->
  forallb (fun c => negb (existsb (chr_eqb " ") c)) cls = true ->
  existsb (str_eqb wanted) cls = false.
Proof.
  intros Hw Hcls. destruct (existsb (str_eqb wanted) cls) eqn:E; [|done].
  apply existsb_exists in E as (c & Hc & <-%bool_decide_eq_true).
  rewrite forallb_forall in Hcls. specialize (Hcls _ Hc).
  by rewrite Hw in Hcls.
Qed.

(** No tag is both a primary and a secondary category: the two filters of
    the categories select different elements, so the categories field
    lists each tag of the block once. *)
Theorem primary_secondary_disjoint (artigo : node) :
  (forall t, In t (descendants artigo) -> classes_sem_espaco t = true) ->
  forall t,
    In t (find_all (py "span") (Some primary_class) artigo) ->
    ~ In t (find_all (py "span") (Some secondary_class) artigo).
Proof.
  intros Hcls t [Hin Hp]%filter_In [_ Hs]%filter_In.
  specialize (Hcls t Hin). destruct t as [s|nm cls cs]; [done|].
  cbn [classes_sem_espaco tag_matches] in *.
  apply andb_prop in Hp as [_ Hp]. apply andb_prop in Hs as [_ Hs].
  unfold class_matches in *.
  rewrite spaced_class_not_a_value in Hp, Hs by done.
  cbn [orb] in *. apply bool_decide_eq_true in Hp, Hs. by rewrite Hp in Hs.
Qed.

(** * More on the year and on the URL *)

Lemma before_semicolon_app (a b : str) :
  ~ In ";"%char a -> before_semicolon (a ++ ";"%char :: b) = a.
Proof.
  induction a as [|c a IH]; [done|]. simpl. intros H.
  unfold chr_eqb. destruct (Ascii.eqb_spec c ";") as [->|_]; [by destruct H; left|].
  rewrite IH; [done|]. intros ?. apply H. by right.
Qed.

(** The year never depends on what follows the first semicolon of the
    metadata text, and looking for it never raises. *)
Theorem year_ignores_after_semicolon (a b : str) :
  ~ In ";"%char a ->
  year_of (a ++ ";"%char :: b) = year_of a
  /\ exists y, year_of a = Ok y.
Proof.
  intros H. unfold year_of. rewrite !first_item_split, before_semicolon_app by done.
  assert (before_semicolon a = a) as ->.
  { clear b. induction a as [|c a IH]; [done|]. simpl. unfold chr_eqb.
    destruct (Ascii.eqb_spec c ";") as [->|_]; [by destruct H; left|].
    rewrite IH; [done|]. intros ?. apply H. by right. }
  split; [done|]. by eexists.
Qed.

Lemma py_inj (a b : string) : py a = py b -> a = b.
Proof.
  unfold py. intros H.
  by rewrite <- (string_of_list_ascii_of_string a),
    <- (string_of_list_ascii_of_string b), H.
Qed.

Lemma str_of_nat_inj (a b : nat) : str_of_nat a = str_of_nat b -> a = b.
Proof.
  unfold str_of_nat. intros H%py_inj. apply Unsigned.to_uint_inj.
  pose proof (NilEmpty.usu (Nat.to_uint a)) as Ha.
  pose proof (NilEmpty.usu (Nat.to_uint b)) as Hb.
  rewrite H in Ha. congruence.
Qed.

(** The URL of a page is the base URL followed by "&start=" and the offset
    in decimal: pages at different offsets have different URLs, so the
    URLs of the offsets 0, 200, 400, ... that a run requests are pairwise
    different. *)
Theorem url_pagina_distinct (base_url : str) :
  (forall a b, a <> b -> url_pagina base_url a <> url_pagina base_url b)
  /\ forall n, NoDup (map (url_pagina base_url) (offsets n)).
Proof.
  assert (forall a b, url_pagina base_url a = url_pagina base_url b -> a = b)
    as Hinj.
  { unfold url_pagina. intros a b H%app_inv_head%app_inv_head.
    by apply str_of_nat_inj. }
  split; [intros a b Hne H; by apply Hne, Hinj|].
  intros n. apply NoDup_alt. intros i j u Hi Hj.
  apply list_lookup_fmap_Some in Hi as (a & -> & Ha).
  apply list_lookup_fmap_Some in Hj as (b & Hab & Hb).
  apply Hinj in Hab as <-.
  apply offsets_lookup in Ha as [_ ->]. apply offsets_lookup in Hb as [_ Hb]. lia.
Qed.

(** ** Concrete inputs for the properties above *)

Lemma while_servidor_curto :
  while_true Z kw_eco servidor_curto 3 inicio
  = Some (final corrida_curta, Concluida).
Proof.
  pose proof corrida_servidor_curto as H.
  unfold extrair_dados_arxiv_json in H.
  destruct (while_true Z kw_eco servidor_curto 3 inicio) as [[st why]|];
    [|done].
  by injection H as -> ->.
Qed.

Lemma requests_are_offsets_witness :
  exists k,
    k < 3
    /\ start (final corrida_curta) = 200 * k
    /\ length (requisicoes (final corrida_curta)) = S k
    /\ (forall i o, requisicoes (final corrida_curta) !! i = Some o -> o = 200 * i)
    /\ last (requisicoes (final corrida_curta)) = Some (200 * k)
    /\ NoDup (requisicoes (final corrida_curta)).
Proof.
  apply (requests_are_offsets Z kw_eco servidor_curto true 3 corrida_curta).
  apply corrida_servidor_curto.
Defined.

Lemma completas_servidor_ilegivel :
  paginas_completas Z kw_eco servidor_ilegivel 1 = Some [registro_completo].
Proof.
  apply (paginas_completas_step Z kw_eco servidor_ilegivel 0 [] [registro_completo]
           [completo]); try done.
Qed.

Lemma corrida_servidor_ilegivel :
  extrair_dados_arxiv_json Z kw_eco servidor_ilegivel true 2 = Some corrida_ilegivel.
Proof.
  assert (pagina Z kw_eco servidor_ilegivel (ao_chegar 1 [registro_completo])
          = (final corrida_ilegivel, Some ErroInesperado)) as Hp by reflexivity.
  rewrite (run_breaks _ _ _ true 1 2 _ _ _ completas_servidor_ilegivel Hp) by lia.
  reflexivity.
Qed.

Lemma stop_reason_cause_witness :
  exists o,
    last (requisicoes (final corrida_ilegivel)) = Some o
    /\ (motivo corrida_ilegivel = Concluida ->
        artigos_da_pagina servidor_ilegivel o = Some [])
    /\ (motivo corrida_ilegivel = ErroInesperado ->
        falha_de_analise servidor_ilegivel o = true
        \/ exists artigos a,
             artigos_da_pagina servidor_ilegivel o = Some artigos /\ a ∈ artigos
             /\ dados_artigo Z kw_eco a = Raise OtherException)
    /\ (motivo corrida_ilegivel = ErroRequisicao ->
        falha_de_transporte servidor_ilegivel o = true
        \/ exists artigos a,
             artigos_da_pagina servidor_ilegivel o = Some artigos /\ a ∈ artigos
             /\ dados_artigo Z kw_eco a = Raise RequestException).
Proof.
  apply (stop_reason_cause Z kw_eco servidor_ilegivel true 2 corrida_ilegivel).
  apply corrida_servidor_ilegivel.
Defined.

Lemma no_stop_on_full_pages_witness :
  extrair_dados_arxiv_json Z kw_eco servidor_400 true 2 = None.
Proof.
  apply (no_stop_on_full_pages Z kw_eco servidor_400 true 2
           (repeat registro_completo 400)).
  - apply completas_servidor_400.
  - lia.
Defined.

Lemma accumulator_in_discovery_order_witness :
  exists k pages parcial,
    length (requisicoes (final corrida_curta)) = S k
    /\ length pages = k
    /\ todos_os_artigos (final corrida_curta) = concat pages ++ parcial
    /\ (forall i, i < k ->
          exists artigos recs,
            artigos_da_pagina servidor_curto (200 * i) = Some artigos
            /\ pages !! i = Some recs
            /\ Forall2 (fun a d => dados_artigo Z kw_eco a = Ok d) artigos recs)
    /\ (parcial = []
        \/ exists artigos n,
             artigos_da_pagina servidor_curto (200 * k) = Some artigos
             /\ n < length artigos
             /\ Forall2 (fun a d => dados_artigo Z kw_eco a = Ok d)
                  (take n artigos) parcial).
Proof.
  apply (accumulator_in_discovery_order Z kw_eco servidor_curto true 3 corrida_curta).
  apply corrida_servidor_curto.
Defined.

Lemma completas_servidor_400_1 :
  paginas_completas Z kw_eco servidor_400 1 = Some (repeat registro_completo 200).
Proof.
  apply (paginas_completas_step Z kw_eco servidor_400 0 []
           (repeat registro_completo 200) (repeat completo 200)).
  - reflexivity.
  - apply artigos_servidor_400. by left.
  - discriminate.
  - apply registros_repeat, dados_completo_eco.
Qed.

Lemma while_servidor_400 :
  while_true Z kw_eco servidor_400 2 (ao_chegar 1 (repeat registro_completo 200))
  = Some ({| start := 400; todos_os_artigos := repeat registro_completo 400;
             requisicoes := [0; 200; 400] |}, ErroRequisicao).
Proof.
  cbn [while_true].
  rewrite (pagina_completa Z kw_eco servidor_400 1 _ _
             completas_servidor_400_1 completas_servidor_400).
  by rewrite pagina_falha.
Qed.

Lemma accumulator_append_only_witness :
  repeat registro_completo 200
    `prefix_of` todos_os_artigos
                  (pagina Z kw_eco servidor_400
                     (ao_chegar 1 (repeat registro_completo 200))).1
  /\ repeat registro_completo 200 `prefix_of` repeat registro_completo 400.
Proof.
  apply (accumulator_append_only Z kw_eco servidor_400 2
           (ao_chegar 1 (repeat registro_completo 200))
           {| start := 400; todos_os_artigos := repeat registro_completo 400;
              requisicoes := [0; 200; 400] |} ErroRequisicao).
  apply while_servidor_400.
Defined.

Lemma only_the_model_raises_witness :
  exists o,
    last (requisicoes (final corrida_ilegivel)) = Some o
    /\ (motivo corrida_ilegivel = Concluida
        \/ (motivo corrida_ilegivel = ErroRequisicao
            /\ falha_de_transporte servidor_ilegivel o = true)
        \/ (motivo corrida_ilegivel = ErroInesperado
            /\ falha_de_analise servidor_ilegivel o = true)).
Proof.
  apply (proj2 (only_the_model_raises Z kw_eco servidor_ilegivel true))
    with (fuel := 2).
  - intros text. by exists [(text, 1%Z)].
  - apply corrida_servidor_ilegivel.
Defined.

Lemma record_strings_are_trimmed_witness :
  (forall s, registro_completo !! "titulo"%string = Some (VStr s) -> aparado s)
  /\ (forall s, registro_completo !! "abstract"%string = Some (VStr s) -> aparado s)
  /\ (forall l, registro_completo !! "autores"%string = Some (VList l) ->
       Forall aparado l)
  /\ (forall s, registro_completo !! "autores"%string = Some (VStr s) ->
       s = py "N/A")
  /\ (forall l, registro_completo !! "categorias"%string = Some (VList l) ->
       Forall aparado l)
  /\ (forall s, registro_completo !! "journal_revista"%string = Some (VStr s) ->
       aparado s).
Proof.
  apply (record_strings_are_trimmed Z kw_eco completo registro_completo).
  apply dados_completo_eco.
Defined.

Lemma keywords_follow_model_witness :
  exists text kws l,
    registro_completo !! "abstract"%string = Some (VStr text)
    /\ kw_eco text (1, 3) 3 = Ok kws
    /\ registro_completo !! "keywords"%string = Some (VList l)
    /\ length l = length kws
    /\ forall i, l !! i = fst <$> kws !! i.
Proof.
  apply (keywords_follow_model Z kw_eco completo registro_completo).
  apply dados_completo_eco.
Defined.

Lemma comments_paragraph_is_metadata_candidate_witness :
  (forall t,
     In t (find_all (py "p") (Some (py "comments is-size-7")) duas_refs) ->
     In t (find_all (py "p") (Some (py "is-size-7")) duas_refs))
  /\ (find_all (py "p") (Some (py "comments is-size-7")) duas_refs <> [] ->
      find (py "p") (Some (py "is-size-7")) duas_refs <> None).
Proof.
  apply (comments_paragraph_is_metadata_candidate duas_refs).
  apply forallb_forall. vm_compute. reflexivity.
Defined.

Lemma year_ignores_after_semicolon_witness :
  year_of (py "Submitted on 3 Jan 2022" ++ ";"%char :: py " revised 10 Feb 2023")
  = year_of (py "Submitted on 3 Jan 2022")
  /\ exists y, year_of (py "Submitted on 3 Jan 2022") = Ok y.
Proof.
  apply (year_ignores_after_semicolon (py "Submitted on 3 Jan 2022")
           (py " revised 10 Feb 2023")).
  intros H. vm_compute in H. intuition discriminate.
Defined.

Lemma url_pagina_distinct_witness :
  url_pagina (py "https://arxiv.org/search/advanced?size=200") 0
  <> url_pagina (py "https://arxiv.org/search/advanced?size=200") 200.
Proof.
  apply (proj1 (url_pagina_distinct (py "https://arxiv.org/search/advanced?size=200"))).
  lia.
Defined.

Lemma primary_secondary_disjoint_witness :
  ~ In (primary_tag "cs.AI")
      (find_all (py "span") (Some secondary_class) sem_abstract).
Proof.
  apply (primary_secondary_disjoint sem_abstract).
  - apply forallb_forall. vm_compute. reflexivity.
  - left. reflexivity.
Defined.

Lemma keywords_empty_without_abstract_witness :
  KeyBERT.extract_keywords Z sem_stop rank_eco (py "N/A") (1, 3) 3 = Ok []
  /\ exists rec,
       dados_artigo Z (KeyBERT.extract_keywords Z sem_stop rank_eco) sem_abstract
       = Ok rec
       /\ rec !! "abstract"%string = Some (VStr (py "N/A"))
       /\ rec !! "keywords"%string = Some (VList []).
Proof.
  apply (keywords_empty_without_abstract Z sem_stop rank_eco sem_abstract).
  vm_compute; reflexivity.
Defined.
